(** * Loan schedule: business-day aware payment dates and payment amounts

    A shallow embedding of [credit.py] and [economic_engineering.py].

    - Calendar dates are records of year, month and day, as [datetime] keeps
      them; the order on dates compares the three fields in turn.  Only the
      date part is modelled: every date the program handles comes from
      [strptime] with the format [%d/%m/%Y], so it is at midnight.  Years are
      integers without an upper limit in the plain definitions; the range of
      [datetime], the years 1 to 9999, and the [ValueError] raised outside
      it, are what the definitions named [_checked] add.
    - The holiday calendar and the business-day offset are the ones the
      program builds from [pandas]: fifteen [Holiday] rules, materialised by
      [AbstractHolidayCalendar.holidays] between 1970-01-01 and 2200-12-31, the
      library's default range, and a Monday to Friday week mask.
    - The interest formulas are stated over the real numbers: the rounding
      of binary floating-point arithmetic is left out.  Division by zero,
      which raises [ZeroDivisionError], is an error result. *)

From Stdlib Require Import ZArith List Bool Lia String Ascii Sorted.
From Stdlib Require Import Reals Lra.
Import ListNotations.

#[local] Open Scope Z_scope.

(** ** Calendar dates *)

Record date : Type := mkDate { year : Z; month : Z; day : Z }.

Definition date_eqb (a b : date) : bool :=
  (year a =? year b) && (month a =? month b) && (day a =? day b).

(** [a < b] on dates: the fields compared in the order year, month, day. *)
Definition date_ltb (a b : date) : bool :=
  (year a <? year b)
  || ((year a =? year b)
      && ((month a <? month b)
          || ((month a =? month b) && (day a <? day b)))).

Definition date_leb (a b : date) : bool := date_ltb a b || date_eqb a b.

Definition date_lt (a b : date) : Prop := date_ltb a b = true.
Definition date_le (a b : date) : Prop := date_leb a b = true.

(** [calendar.isleap] *)
Definition isleap (y : Z) : bool :=
  (y mod 4 =? 0) && (negb (y mod 100 =? 0) || (y mod 400 =? 0)).

(** [calendar.monthrange(y, m)[1]]: the number of days of month [m]. *)
Definition days_in_month (y m : Z) : Z :=
  match m with
  | 2 => if isleap y then 29 else 28
  | 4 | 6 | 9 | 11 => 30
  | _ => 31
  end.

Definition valid_date (d : date) : Prop :=
  1 <= month d <= 12 /\ 1 <= day d <= days_in_month (year d) (month d).

Definition valid_dateb (d : date) : bool :=
  (1 <=? month d) && (month d <=? 12)
  && (1 <=? day d) && (day d <=? days_in_month (year d) (month d)).

(** [datetime._days_before_year] *)
Definition days_before_year (y : Z) : Z :=
  let y1 := y - 1 in y1 * 365 + y1 / 4 - y1 / 100 + y1 / 400.

(** [datetime._days_before_month] *)
Definition days_before_month (y m : Z) : Z :=
  match m with
  | 1 => 0 | 2 => 31 | 3 => 59 | 4 => 90 | 5 => 120 | 6 => 151
  | 7 => 181 | 8 => 212 | 9 => 243 | 10 => 273 | 11 => 304 | _ => 334
  end + (if (2 <? m) && isleap y then 1 else 0).

(** [date.toordinal]: day 1 is 0001-01-01. *)
Definition toordinal (d : date) : Z :=
  days_before_year (year d) + days_before_month (year d) (month d) + day d.

(** [date.weekday]: Monday is 0, Sunday is 6. *)
Definition weekday (d : date) : Z := (toordinal d + 6) mod 7.

(** The day after [d] ([d + timedelta(days=1)]). *)
Definition succ_day (d : date) : date :=
  if day d <? days_in_month (year d) (month d)
  then mkDate (year d) (month d) (day d + 1)
  else if month d <? 12
       then mkDate (year d) (month d + 1) 1
       else mkDate (year d + 1) 1 1.

(** The day before [d] ([d - timedelta(days=1)]). *)
Definition pred_day (d : date) : date :=
  if 1 <? day d
  then mkDate (year d) (month d) (day d - 1)
  else if 1 <? month d
       then mkDate (year d) (month d - 1) (days_in_month (year d) (month d - 1))
       else mkDate (year d - 1) 12 31.

Fixpoint succ_days (k : nat) (d : date) : date :=
  match k with
  | O => d
  | S k' => succ_days k' (succ_day d)
  end.

Fixpoint pred_days (k : nat) (d : date) : date :=
  match k with
  | O => d
  | S k' => pred_days k' (pred_day d)
  end.

(** [d + timedelta(days=k)] *)
Definition add_days (d : date) (k : Z) : date :=
  if 0 <=? k then succ_days (Z.to_nat k) d else pred_days (Z.to_nat (- k)) d.

(** [(b - a).days] *)
Definition days_between (a b : date) : Z := toordinal b - toordinal a.

(** ** Easter and the date offsets of the holiday rules *)

(** [dateutil.easter.easter(y)], the western method, which is the one
    [pandas.tseries.offsets.Easter] calls. *)
Definition easter (y : Z) : date :=
  let g := y mod 19 in
  let c := y / 100 in
  let h := (c - c / 4 - (8 * c + 13) / 25 + 19 * g + 15) mod 30 in
  let i := h - (h / 28) * (1 - (h / 28) * (29 / (h + 1)) * ((21 - g) / 11)) in
  let j := (y + y / 4 + i + 2 - c + c / 4) mod 7 in
  let p := i - j in
  let d := 1 + (p + 27 + (p + 6) / 40) mod 31 in
  let m := 3 + (p + 26) / 30 in
  mkDate y m d.

(** The two offsets the rules use: [Easter()] and [Day(n)]. *)
Inductive DateOffset : Type :=
| Easter
| Day (n : Z).

(** [other + offset].  [Easter()] moves to the first Easter Sunday strictly
    after [other]; [Day(n)] adds [n] days. *)
Definition apply_offset (o : DateOffset) (other : date) : date :=
  match o with
  | Easter =>
      let current_easter := easter (year other) in
      if date_ltb other current_easter then current_easter
      else easter (year other + 1)
  | Day n => add_days other n
  end.

(** [pandas.tseries.holiday.nearest_workday]: Saturday is observed on the
    Friday before, Sunday on the Monday after. *)
Definition nearest_workday (dt : date) : date :=
  if weekday dt =? 5 then add_days dt (-1)
  else if weekday dt =? 6 then add_days dt 1
  else dt.

(** ** The holiday calendar *)

(** A [Holiday] rule: a reference month and day, and either an observance
    function or a list of offsets (empty when the rule gives none). *)
Record Holiday : Type := mkHoliday {
  h_name : string;
  h_month : Z;
  h_day : Z;
  h_observance : option (date -> date);
  h_offset : list DateOffset
}.

(** [Holiday._apply_rule] on one reference date: the observance when there is
    one, otherwise the offsets applied in order. *)
Definition apply_rule (h : Holiday) (d : date) : date :=
  match h_observance h with
  | Some f => f d
  | None => fold_left (fun acc o => apply_offset o acc) (h_offset h) d
  end.

(** The date rule [h] gives for reference year [y]. *)
Definition holiday_in_year (h : Holiday) (y : Z) : date :=
  apply_rule h (mkDate y (h_month h) (h_day h)).

(** The years [lo], [lo + 1], ..., [hi]. *)
Definition year_range (lo hi : Z) : list Z :=
  map (fun k => lo + Z.of_nat k) (seq 0 (Z.to_nat (hi + 1 - lo))).

(** [Holiday.dates(start_date, end_date)]: the reference dates run from the
    year before [start_date] to the year after [end_date]; the rule is applied
    to each, and the dates outside the range are dropped. *)
Definition holiday_dates (h : Holiday) (start_date end_date : date) : list date :=
  filter (fun d => date_leb start_date d && date_leb d end_date)
         (map (holiday_in_year h)
              (year_range (year start_date - 1) (year end_date + 1))).

Module AbstractHolidayCalendar.
(** The range [holidays()] uses when it is called without bounds. *)
Definition start_date : date := mkDate 1970 1 1.
Definition end_date : date := mkDate 2200 12 31.

(** [holidays()]: the dates of every rule within the default range. *)
Definition holidays (rules : list Holiday) : list date :=
  flat_map (fun h => holiday_dates h start_date end_date) rules.
End AbstractHolidayCalendar.

Module PeruHolidayCalendar.
Definition rules : list Holiday :=
  [ mkHoliday "New Year's Day" 1 1 (Some nearest_workday) [];
    mkHoliday "New Year's 2nd Day" 1 2 (Some nearest_workday) [];
    mkHoliday "Jueves Santo" 1 1 None [Easter; Day (-3)];
    mkHoliday "Dia del trabajo" 5 1 None [];
    mkHoliday "Viernes Santo" 1 1 None [Easter; Day (-2)];
    mkHoliday "San Pedro y San Pablo" 6 29 None [];
    mkHoliday "Dia de la independencia 1" 7 28 None [];
    mkHoliday "Dia de la independencia 2" 7 29 None [];
    mkHoliday "Batalla de Junin" 8 6 None [];
    mkHoliday "Santa Rosa de Lima" 8 30 None [];
    mkHoliday "Combate de Angamos" 10 8 None [];
    mkHoliday "Dia de todos los santos" 11 1 None [];
    mkHoliday "Dia de la Inmaculada Concepcion" 12 8 None [];
    mkHoliday "Batalla de Ayacucho" 12 9 None [];
    mkHoliday "Navidad" 12 25 None [] ].

Definition holidays : list date := AbstractHolidayCalendar.holidays rules.
End PeruHolidayCalendar.

(** ** The business-day offset *)

(** [CustomBusinessDay(calendar=...)]: the default week mask, Monday to
    Friday, and the holidays of the calendar. *)
Record CustomBusinessDay : Type := mkCustomBusinessDay {
  holidays : list date
}.

Definition weekmask (wd : Z) : bool := wd <? 5.

Definition is_holiday (business_days : CustomBusinessDay) (d : date) : bool :=
  existsb (date_eqb d) (holidays business_days).

(** [CustomBusinessDay.is_on_offset] ([numpy.is_busday]). *)
Definition is_on_offset (business_days : CustomBusinessDay) (d : date) : bool :=
  weekmask (weekday d) && negb (is_holiday business_days d).

(** The search [numpy.busday_offset] runs: step a day at a time until a
    business day is met.  The library loops without a bound; [fuel] is the
    number of steps allowed here, and the last date reached is returned when
    it runs out. *)
Fixpoint next_on_offset (business_days : CustomBusinessDay) (fuel : nat)
    (d : date) : date :=
  match fuel with
  | O => d
  | S fuel' =>
      if is_on_offset business_days d then d
      else next_on_offset business_days fuel' (succ_day d)
  end.

(** The ordinal of the last holiday of the calendar (0 when it has none). *)
Definition last_holiday_ordinal (business_days : CustomBusinessDay) : Z :=
  fold_right Z.max 0 (map toordinal (holidays business_days)).

(** Steps that always suffice from the day after [d]: past the last holiday
    only weekends are left, and a weekend ends within two days. *)
Definition roll_fuel (business_days : CustomBusinessDay) (d : date) : nat :=
  Z.to_nat (Z.max 2 (last_holiday_ordinal business_days + 2 - toordinal d)).

(** A bound on the number of steps the search still needs from [d]: used to
    show that [roll_fuel] is enough. *)
Definition steps_left (business_days : CustomBusinessDay) (d : date) : Z :=
  if last_holiday_ordinal business_days <? toordinal d
  then (if weekday d <? 5 then 0 else 7 - weekday d)
  else last_holiday_ordinal business_days + 3 - toordinal d.

(** [CustomBusinessDay.rollforward]: the date itself when it is on the
    offset, otherwise the next business day after it. *)
Definition rollforward (business_days : CustomBusinessDay) (d : date) : date :=
  if is_on_offset business_days d then d
  else next_on_offset business_days (roll_fuel business_days d) (succ_day d).

(** [is_business_day(business_days, date)] *)
Definition is_business_day (business_days : CustomBusinessDay) (d : date) : bool :=
  date_eqb d (rollforward business_days d).

(** [CustomBusinessDay(calendar=PeruHolidayCalendar())] *)
Definition offseter : CustomBusinessDay :=
  mkCustomBusinessDay PeruHolidayCalendar.holidays.

(** ** relativedelta *)

(** [relativedelta(day=..., months=...)]: the two fields the program sets
    ([months] lies between -12 and 12; the program uses 1). *)
Record relativedelta : Type := mkRelativedelta {
  rd_day : option Z;
  rd_months : Z
}.

(** [other + rd] ([relativedelta.__radd__]): the months are added first, with
    the year carried; then the day is replaced by [rd_day] (the day of
    [other] when [rd_day] is absent or 0), cut down to the length of the
    month reached.  This is the date the fields give; whether [datetime]
    can hold it is the check of [add_relativedelta_checked]. *)
Definition add_relativedelta (other : date) (rd : relativedelta) : date :=
  let '(y, m) :=
    if rd_months rd =? 0 then (year other, month other)
    else
      let m := month other + rd_months rd in
      if 12 <? m then (year other + 1, m - 12)
      else if m <? 1 then (year other - 1, m + 12)
      else (year other, m) in
  let wanted :=
    match rd_day rd with
    | Some n => if n =? 0 then day other else n
    | None => day other
    end in
  mkDate y m (Z.min (days_in_month y m) wanted).

(** ** The payment-date generator *)

Definition newline : string := String (ascii_of_nat 10) EmptyString.

Definition two_digits (n : Z) : string :=
  String (ascii_of_nat (48 + Z.to_nat (n / 10 mod 10)))
    (String (ascii_of_nat (48 + Z.to_nat (n mod 10))) EmptyString).

(** [date.strftime(DATE_FORMAT)] with [DATE_FORMAT = '%d/%m/%Y']; the year is
    written with four digits, which is what every platform prints for the
    years 1000 to 9999 (for an earlier year the C library decides whether
    zeros are put in front). *)
Definition strftime (d : date) : string :=
  (two_digits (day d) ++ "/" ++ two_digits (month d) ++ "/"
   ++ two_digits (year d / 100) ++ two_digits (year d))%string.

(** The variables of the loop of [get_payment_dates], and what it has
    printed so far (one string per [print] call). *)
Record loop_state : Type := mkLoopState {
  payday : date;
  paydays : list date;
  stdout : list string
}.

(** One pass through the body of the [for] loop. *)
Definition loop_body (offseter : CustomBusinessDay) (payment_day : Z)
    (debug : bool) (s : loop_state) : loop_state :=
  let payday1 := add_relativedelta (payday s) (mkRelativedelta (Some payment_day) 1) in
  if negb (is_business_day offseter payday1) then
    let out1 :=
      if debug then [(strftime payday1 ++ " is not a business day, ")%string]
      else [] in
    let payday2 := rollforward offseter payday1 in
    let out2 := if debug then [(strftime payday2 ++ " is." ++ newline)%string] else [] in
    mkLoopState payday2 (paydays s ++ [payday2]) (stdout s ++ out1 ++ out2)
  else
    mkLoopState payday1 (paydays s ++ [payday1]) (stdout s).

(** [get_payment_dates(buy_date, payment_day, timesteps, debug)]: the list
    returned, and the lines printed.  [range(timesteps)] is empty for a
    negative [timesteps].  The dates are computed without the range check
    of [datetime]; [get_payment_dates_checked] has it. *)
Definition get_payment_dates (buy_date : date) (payment_day : Z)
    (timesteps : Z) (debug : bool) : list date * list string :=
  let payday0 := add_relativedelta buy_date (mkRelativedelta (Some payment_day) 1) in
  let s := Nat.iter (Z.to_nat timesteps) (loop_body offseter payment_day debug)
                    (mkLoopState payday0 [] []) in
  (paydays s, stdout s).

(** *** The generator as a recurrence *)

(** What one pass of the loop makes of [payday]: one month further, on
    [payment_day], rolled forward when that is not a business day. *)
Definition next_payday (offseter : CustomBusinessDay) (payment_day : Z)
    (payday : date) : date :=
  let payday1 := add_relativedelta payday (mkRelativedelta (Some payment_day) 1) in
  if negb (is_business_day offseter payday1) then rollforward offseter payday1
  else payday1.

(** The dates [k] passes of the loop append, starting from [payday]. *)
Fixpoint paydays_from (offseter : CustomBusinessDay) (payment_day : Z)
    (k : nat) (payday : date) : list date :=
  match k with
  | O => []
  | S k' =>
      let payday' := next_payday offseter payment_day payday in
      payday' :: paydays_from offseter payment_day k' payday'
  end.

(** *** Theoretical dates *)

(** Months counted from year 0: the month of [d] as one number. *)
Definition month_index (d : date) : Z := year d * 12 + (month d - 1).

(** The date [k] months after the month of [d], on day [target_day] of the
    month, or on the last day of the month when it is shorter. *)
Definition months_ahead (k : Z) (target_day : Z) (d : date) : date :=
  let idx := month_index d + k in
  let y := idx / 12 in
  let m := idx mod 12 + 1 in
  mkDate y m (Z.min (days_in_month y m) target_day).

(** *** Runs of days off

    A check, by computation over the rules, that no holiday is followed by
    four more days off. *)

(** The dates the rules give for reference year [y]. *)
Definition year_rule_dates (y : Z) : list date :=
  map (fun h => holiday_in_year h y) PeruHolidayCalendar.rules.

(** For each date the rules give for year [y]: one of the four days after it
    is a weekday that no rule gives for the years around [y]. *)
Definition check_year (y : Z) : bool :=
  let around := flat_map year_rule_dates [y - 1; y; y + 1; y + 2] in
  forallb
    (fun h =>
       existsb
         (fun k =>
            let e := succ_days k h in
            (weekday e <? 5) && (y - 1 <=? year e) && (year e <=? y + 1)
            && negb (existsb (date_eqb e) around))
         [1; 2; 3; 4]%nat)
    (year_rule_dates y).

(** ** Arithmetic that can fail *)

#[local] Open Scope R_scope.

(** The result of a computation that may raise: [None] is the exception. *)
Definition bind {A B : Type} (x : option A) (f : A -> option B) : option B :=
  match x with
  | Some a => f a
  | None => None
  end.

#[local] Notation "x <- e ;; k" := (bind e (fun x => k))
  (at level 61, e at next level, right associativity).

(** [x / y]: [ZeroDivisionError] when [y] is zero. *)
Definition py_div (x y : R) : option R :=
  if Req_dec_T y 0 then None else Some (x / y).

(** [x ** n] for an integer [n]: zero cannot be raised to a negative
    power. *)
Definition py_pow (x : R) (n : Z) : option R :=
  if Req_dec_T x 0
  then (if (n <? 0)%Z then None else Some (powerRZ x n))
  else Some (powerRZ x n).

(** [x ** y] for a real exponent [y].  A negative base gives a complex
    number, which is outside this model: it is [None] as well. *)
Definition py_rpow (x y : R) : option R :=
  if Rlt_dec 0 x then Some (Rpower x y)
  else if Req_dec_T x 0
       then (if Rlt_dec 0 y then Some 0
             else if Req_dec_T y 0 then Some 1 else None)
       else None.

(** ** Interest formulas ([economic_engineering.py]) *)

(** The amounts the formulas are applied to: numbers, and (in the solver) an
    expression in the unknown [F], which stands for the function of [F] it
    denotes.  [times a q] is [a * q] for a number [q]. *)
Class Amount (T : Type) : Type := times : T -> R -> T.

#[export] Instance number_amount : Amount R := Rmult.

#[export] Instance expression_amount : Amount (R -> R) :=
  fun e q => fun F => e F * q.

(** [f_given_p(P, i, n) = P * ((1 + i) ** n)] *)
Definition f_given_p {T : Type} `{Amount T} (P : T) (i : R) (n : Z) : option T :=
  p <- py_pow (1 + i) n ;;
  Some (times P p).

(** [p_given_f(F, i, n) = F * (1 / ((1 + i) ** n))] *)
Definition p_given_f {T : Type} `{Amount T} (F : T) (i : R) (n : Z) : option T :=
  p <- py_pow (1 + i) n ;;
  q <- py_div 1 p ;;
  Some (times F q).

(** [p_given_a(A, i, n) = A * (((1 + i) ** n) - 1) / (i * ((1 + i) ** n))] *)
Definition p_given_a (A i : R) (n : Z) : option R :=
  p <- py_pow (1 + i) n ;;
  py_div (A * (p - 1)) (i * p).

(** [EAR_to_EMR(EAR) = ((1 + EAR) ** (1/12)) - 1] *)
Definition EAR_to_EMR (EAR : R) : option R :=
  p <- py_rpow (1 + EAR) (1 / 12) ;;
  Some (p - 1).

(** [EMR_to_EAR(EMR) = ((1 + EMR) ** 12) - 1] *)
Definition EMR_to_EAR (EMR : R) : option R :=
  p <- py_pow (1 + EMR) 12 ;;
  Some (p - 1).

(** [EMR_to_EDR(EMR) = ((1 + EMR) ** (1/30)) - 1] *)
Definition EMR_to_EDR (EMR : R) : option R :=
  p <- py_rpow (1 + EMR) (1 / 30) ;;
  Some (p - 1).

(** [EDR_to_EAR(EDR) = ((1 + EDR) ** 360) - 1] *)
Definition EDR_to_EAR (EDR : R) : option R :=
  p <- py_pow (1 + EDR) 360 ;;
  Some (p - 1).

(** ** The payment-amount solver *)

(** [Symbol("F")] *)
Definition F_sym : R -> R := fun F => F.

(** The expression [Eq] the loop of [calculate_payment_amount] builds:
    [capital], less the present value of [F] at each payment date. *)
Definition equation (capital i_edr : R) (buy_date : date)
    (payment_dates : list date) : option (R -> R) :=
  fold_left
    (fun Eq date =>
       e <- Eq ;;
       let days := days_between buy_date date in
       pv <- p_given_f F_sym i_edr days ;;
       Some (fun F => e F - pv F))
    payment_dates
    (Some (fun _ => capital)).

(** The sum of a list of numbers. *)
Definition Rsum (l : list R) : R := fold_right Rplus 0 l.

Section Solver.

(** [nsolve([Eq], [F_sym], [x0])], the numerical solver of [sympy]: the
    value it returns, or [None] when it raises.  [round2 x] is
    [round(x, 2)]. *)
Variable nsolve : (R -> R) -> R -> option R.
Variable round2 : R -> R.

(** [calculate_payment_amount(capital, i_edr, buy_date, payment_dates)] *)
Definition calculate_payment_amount (capital i_edr : R) (buy_date : date)
    (payment_dates : list date) : option (R * R) :=
  Eq <- equation capital i_edr buy_date payment_dates ;;
  F_val <- nsolve Eq 1 ;;
  let rounded_val := round2 F_val in
  let last_val :=
    round2 (F_val + (F_val - rounded_val) * INR (List.length payment_dates)) in
  Some (rounded_val, last_val).

End Solver.

(** One Newton step, with the slope read off [f] itself: it lands on the
    root of an equation of degree one, which is what [equation] builds. *)
Definition newton_step (f : R -> R) (x0 : R) : option R :=
  step <- py_div (f x0) (f (x0 + 1) - f x0) ;;
  Some (x0 - step).

(** Rounding to a whole number, ties to the even neighbour. *)
Definition round_half_even (x : R) : Z :=
  let f := Int_part x in
  let r := x - IZR f in
  if Rlt_dec r (1 / 2) then f
  else if Rlt_dec (1 / 2) r then (f + 1)%Z
  else if Z.even f then f else (f + 1)%Z.

(** Rounding to two decimal places. *)
Definition round_cents (x : R) : R := IZR (round_half_even (x * 100)) / 100.

#[local] Close Scope R_scope.

(** ** The other formulas of [economic_engineering.py] *)

#[local] Open Scope R_scope.

(** [a_given_p(p, i, n) = (p * i) / (1 - (1 + i) ** (-n))] *)
Definition a_given_p (p i : R) (n : Z) : option R :=
  q <- py_pow (1 + i) (- n) ;;
  py_div (p * i) (1 - q).

(** [f_given_a(A, i, n) = A * ((((1 + i) ** n) - 1) / i)] *)
Definition f_given_a (A i : R) (n : Z) : option R :=
  p <- py_pow (1 + i) n ;;
  q <- py_div (p - 1) i ;;
  Some (A * q).

(** [NAR_to_effective_period_rate(EAR, n=12) = EAR / n] *)
Definition NAR_to_effective_period_rate (EAR : R) (n : Z) : option R :=
  py_div EAR (IZR n).

(** [NAR_to_EAR(NAR, n=12)]: [effective_period_rate = NAR / n], then
    [((1 + effective_period_rate) ** n) - 1]. *)
Definition NAR_to_EAR (NAR : R) (n : Z) : option R :=
  effective_period_rate <- py_div NAR (IZR n) ;;
  p <- py_pow (1 + effective_period_rate) n ;;
  Some (p - 1).

(** [EAR_to_NAR(EAR, n=12) = n * (((1 + EAR) ** (1 / n)) - 1)] *)
Definition EAR_to_NAR (EAR : R) (n : Z) : option R :=
  e <- py_div 1 (IZR n) ;;
  p <- py_rpow (1 + EAR) e ;;
  Some (IZR n * (p - 1)).

#[local] Close Scope R_scope.


(** ** The range of [datetime]

    A [datetime] holds a date of the years 1 to 9999.  Building a date
    outside that range, or on a day its month does not have, raises
    [ValueError] (or [OverflowError], from the date arithmetic of
    [rollforward]).  The definitions below are the generator again, with
    that check at each date it builds: [None] is the exception. *)

Definition MINYEAR : Z := 1.
Definition MAXYEAR : Z := 9999.

(** The dates a [datetime] can hold. *)
Definition in_datetime_range (d : date) : bool :=
  valid_dateb d && (MINYEAR <=? year d) && (year d <=? MAXYEAR).

(** The check the constructor of [datetime] makes. *)
Definition checked (d : date) : option date :=
  if in_datetime_range d then Some d else None.

(** [other + rd]: [relativedelta.__radd__] ends in
    [other.replace(year=..., month=..., day=...)], which builds the date. *)
Definition add_relativedelta_checked (other : date) (rd : relativedelta)
    : option date :=
  checked (add_relativedelta other rd).

(** [CustomBusinessDay.rollforward]: the search goes forward only, so it
    leaves the range exactly when the date it ends on is outside it. *)
Definition rollforward_checked (business_days : CustomBusinessDay) (d : date)
    : option date :=
  checked (rollforward business_days d).

(** [is_business_day(business_days, date)] *)
Definition is_business_day_checked (business_days : CustomBusinessDay)
    (d : date) : option bool :=
  rolled <- rollforward_checked business_days d ;;
  Some (date_eqb d rolled).

(** One pass through the body of the [for] loop. *)
Definition loop_body_checked (offseter : CustomBusinessDay) (payment_day : Z)
    (debug : bool) (s : loop_state) : option loop_state :=
  payday1 <- add_relativedelta_checked (payday s)
               (mkRelativedelta (Some payment_day) 1) ;;
  business <- is_business_day_checked offseter payday1 ;;
  if negb business then
    let out1 :=
      if debug then [(strftime payday1 ++ " is not a business day, ")%string]
      else [] in
    payday2 <- rollforward_checked offseter payday1 ;;
    let out2 := if debug then [(strftime payday2 ++ " is." ++ newline)%string] else [] in
    Some (mkLoopState payday2 (paydays s ++ [payday2]) (stdout s ++ out1 ++ out2))
  else
    Some (mkLoopState payday1 (paydays s ++ [payday1]) (stdout s)).

(** [k] passes of the loop, the first one on [s]; an exception ends it. *)
Fixpoint loop_checked (offseter : CustomBusinessDay) (payment_day : Z)
    (debug : bool) (k : nat) (s : loop_state) : option loop_state :=
  match k with
  | O => Some s
  | S k' =>
      s' <- loop_body_checked offseter payment_day debug s ;;
      loop_checked offseter payment_day debug k' s'
  end.

(** [get_payment_dates(buy_date, payment_day, timesteps, debug)]: the list
    returned and the lines printed, or [None] when the call raises.  The
    first date is built before the loop, whatever [timesteps] is. *)
Definition get_payment_dates_checked (buy_date : date) (payment_day : Z)
    (timesteps : Z) (debug : bool) : option (list date * list string) :=
  payday0 <- add_relativedelta_checked buy_date
               (mkRelativedelta (Some payment_day) 1) ;;
  s <- loop_checked offseter payment_day debug (Z.to_nat timesteps)
         (mkLoopState payday0 [] []) ;;
  Some (paydays s, stdout s).
(** * Properties *)

Example toordinal_2024_01_01 : toordinal (mkDate 2024 1 1) = 738886.
Proof. reflexivity. Qed.

Example weekday_2024_01_01 : weekday (mkDate 2024 1 1) = 0.
Proof. reflexivity. Qed.

(** *** Facts about dates *)

Lemma date_eqb_eq (a b : date) : date_eqb a b = true <-> a = b.
Proof.
  unfold date_eqb. destruct a as [y m d], b as [y' m' d']; simpl.
  rewrite !andb_true_iff, !Z.eqb_eq. split.
  - intros [[-> ->] ->]. reflexivity.
  - intros H. injection H as -> -> ->. auto.
Qed.

Lemma date_eqb_refl (a : date) : date_eqb a a = true.
Proof. apply date_eqb_eq. reflexivity. Qed.

Lemma date_lt_unfold (a b : date) :
  date_lt a b <->
  year a < year b \/
  (year a = year b /\ (month a < month b \/ (month a = month b /\ day a < day b))).
Proof.
  unfold date_lt, date_ltb.
  rewrite !orb_true_iff, !andb_true_iff, !orb_true_iff, !andb_true_iff,
    !Z.ltb_lt, !Z.eqb_eq.
  reflexivity.
Qed.

Lemma date_le_unfold (a b : date) : date_le a b <-> date_lt a b \/ a = b.
Proof.
  unfold date_le, date_leb. rewrite orb_true_iff, date_eqb_eq. reflexivity.
Qed.

Lemma date_lt_irrefl (a : date) : ~ date_lt a a.
Proof. rewrite date_lt_unfold. lia. Qed.

Lemma date_lt_trans (a b c : date) : date_lt a b -> date_lt b c -> date_lt a c.
Proof. rewrite !date_lt_unfold. lia. Qed.

Lemma date_lt_neq (a b : date) : date_lt a b -> a <> b.
Proof. intros H ->. exact (date_lt_irrefl _ H). Qed.

Lemma date_le_refl (a : date) : date_le a a.
Proof. apply date_le_unfold. right. reflexivity. Qed.

Lemma date_le_lt_trans (a b c : date) : date_le a b -> date_lt b c -> date_lt a c.
Proof.
  rewrite date_le_unfold. intros [H | ->] H'; [eapply date_lt_trans|]; eassumption.
Qed.

Lemma date_lt_le_trans (a b c : date) : date_lt a b -> date_le b c -> date_lt a c.
Proof.
  rewrite date_le_unfold. intros H [H' | <-]; [eapply date_lt_trans|]; eassumption.
Qed.

Lemma date_le_trans (a b c : date) : date_le a b -> date_le b c -> date_le a c.
Proof.
  rewrite (date_le_unfold a b). intros [H | ->] H'; [|exact H'].
  apply date_le_unfold. left. eapply date_lt_le_trans; eassumption.
Qed.

Lemma date_lt_le (a b : date) : date_lt a b -> date_le a b.
Proof. intros H. apply date_le_unfold. left. exact H. Qed.

Lemma valid_dateb_iff (d : date) : valid_dateb d = true <-> valid_date d.
Proof.
  unfold valid_dateb, valid_date.
  rewrite !andb_true_iff, !Z.leb_le. tauto.
Qed.

Lemma days_in_month_bounds (y m : Z) : 28 <= days_in_month y m <= 31.
Proof.
  unfold days_in_month.
  repeat match goal with
         | |- context [match ?x with _ => _ end] => destruct x
         end; lia.
Qed.

Lemma succ_day_lt (d : date) : date_lt d (succ_day d).
Proof.
  apply date_lt_unfold. unfold succ_day.
  destruct (day d <? _); simpl; [lia|].
  destruct (month d <? 12) eqn:E; simpl; [|lia].
  apply Z.ltb_lt in E. lia.
Qed.

Lemma isleap_spec (y : Z) :
  isleap y = true <-> y mod 4 = 0 /\ (y mod 100 <> 0 \/ y mod 400 = 0).
Proof.
  unfold isleap.
  rewrite andb_true_iff, orb_true_iff, negb_true_iff, !Z.eqb_eq, Z.eqb_neq.
  reflexivity.
Qed.

Lemma days_before_year_succ (y : Z) :
  days_before_year (y + 1) =
  days_before_year y + 365 + (if isleap y then 1 else 0).
Proof.
  unfold days_before_year. cbv zeta.
  replace (y + 1 - 1) with y by lia.
  destruct (isleap y) eqn:E.
  - apply isleap_spec in E. Z.div_mod_to_equations. lia.
  - assert (H : ~ (y mod 4 = 0 /\ (y mod 100 <> 0 \/ y mod 400 = 0))).
    { rewrite <- isleap_spec, E. discriminate. }
    Z.div_mod_to_equations. lia.
Qed.

Lemma month_cases (m : Z) :
  1 <= m <= 12 ->
  m = 1 \/ m = 2 \/ m = 3 \/ m = 4 \/ m = 5 \/ m = 6 \/
  m = 7 \/ m = 8 \/ m = 9 \/ m = 10 \/ m = 11 \/ m = 12.
Proof. lia. Qed.

Ltac month_split H :=
  apply month_cases in H;
  repeat (destruct H as [H | H]; [subst | ]); [ .. | subst].

Ltac pose_month_bounds :=
  repeat match goal with
         | H : context [days_in_month ?a ?b] |- _ =>
             lazymatch goal with
             | _ : 28 <= days_in_month a b <= 31 |- _ => fail
             | _ => pose proof (days_in_month_bounds a b)
             end
         end.

Ltac ltb_to_Z :=
  repeat match goal with
         | H : (_ <? _) = true |- _ => apply Z.ltb_lt in H
         | H : (_ <? _) = false |- _ => apply Z.ltb_ge in H
         end.

Lemma toordinal_succ_day (d : date) :
  valid_date d -> toordinal (succ_day d) = toordinal d + 1.
Proof.
  destruct d as [y m dd]. unfold valid_date, succ_day, toordinal; simpl.
  intros [Hm Hd].
  destruct (dd <? days_in_month y m) eqn:E; simpl; [lia|].
  apply Z.ltb_ge in E. assert (dd = days_in_month y m) as -> by lia. clear E Hd.
  month_split Hm; unfold days_before_month, days_in_month; simpl;
    try rewrite days_before_year_succ; destruct (isleap y); simpl; lia.
Qed.

Lemma valid_succ_day (d : date) : valid_date d -> valid_date (succ_day d).
Proof.
  destruct d as [y m dd]. unfold valid_date, succ_day; simpl.
  intros [Hm Hd].
  destruct (dd <? days_in_month y m) eqn:E; simpl.
  - apply Z.ltb_lt in E. lia.
  - destruct (m <? 12) eqn:E'; simpl.
    + apply Z.ltb_lt in E'. pose proof (days_in_month_bounds y (m + 1)). lia.
    + lia.
Qed.

Lemma toordinal_pred_day (d : date) :
  valid_date d -> toordinal (pred_day d) = toordinal d - 1.
Proof.
  destruct d as [y m dd]. unfold valid_date, pred_day, toordinal; simpl.
  intros [Hm Hd].
  destruct (1 <? dd) eqn:E; simpl; [lia|].
  apply Z.ltb_ge in E. assert (dd = 1) as -> by lia. clear E Hd.
  month_split Hm; unfold days_before_month, days_in_month; simpl.
  - replace (days_before_year y) with (days_before_year (y - 1 + 1))
      by (f_equal; lia).
    rewrite days_before_year_succ. destruct (isleap (y - 1)); simpl; lia.
  - lia.
  - destruct (isleap y); simpl; lia.
  - destruct (isleap y); simpl; lia.
  - destruct (isleap y); simpl; lia.
  - destruct (isleap y); simpl; lia.
  - destruct (isleap y); simpl; lia.
  - destruct (isleap y); simpl; lia.
  - destruct (isleap y); simpl; lia.
  - destruct (isleap y); simpl; lia.
  - destruct (isleap y); simpl; lia.
  - destruct (isleap y); simpl; lia.
Qed.

Lemma valid_pred_day (d : date) : valid_date d -> valid_date (pred_day d).
Proof.
  destruct d as [y m dd]. unfold valid_date, pred_day; simpl.
  intros [Hm Hd].
  destruct (1 <? dd) eqn:E; simpl.
  - apply Z.ltb_lt in E. lia.
  - destruct (1 <? m) eqn:E'; simpl.
    + apply Z.ltb_lt in E'. pose proof (days_in_month_bounds y (m - 1)). lia.
    + lia.
Qed.

Example easter_2024 : easter 2024 = mkDate 2024 3 31.
Proof. reflexivity. Qed.

Example easter_2019 : easter 2019 = mkDate 2019 4 21.
Proof. reflexivity. Qed.

Example easter_2038 : easter 2038 = mkDate 2038 4 25.
Proof. reflexivity. Qed.

Example holidays_length : List.length PeruHolidayCalendar.holidays = 3465%nat.
Proof. vm_compute. reflexivity. Qed.

Example schedule_2024 :
  fst (get_payment_dates (mkDate 2024 1 1) 15 12 false) =
  [ mkDate 2024 3 15; mkDate 2024 4 15; mkDate 2024 5 15; mkDate 2024 6 17;
    mkDate 2024 7 15; mkDate 2024 8 15; mkDate 2024 9 16; mkDate 2024 10 15;
    mkDate 2024 11 15; mkDate 2024 12 16; mkDate 2025 1 15; mkDate 2025 2 17 ].
Proof. vm_compute. reflexivity. Qed.

Example schedule_2021_day_31 :
  get_payment_dates (mkDate 2021 5 10) 31 3 true =
  ( [ mkDate 2021 8 2; mkDate 2021 9 30; mkDate 2021 11 2 ],
    [ "31/07/2021 is not a business day, "; "02/08/2021 is." ++ newline;
      "31/10/2021 is not a business day, "; "02/11/2021 is." ++ newline ]%string ).
Proof. vm_compute. reflexivity. Qed.

Lemma date_le_fields (a b : date) :
  date_le a b <->
  year a < year b \/
  (year a = year b /\ (month a < month b \/ (month a = month b /\ day a <= day b))).
Proof.
  rewrite date_le_unfold, date_lt_unfold. split.
  - intros [H | ->]; lia.
  - intros H. destruct a as [y m d], b as [y' m' d']; simpl in *.
    destruct (Z.eq_dec d d') as [-> | Hd];
      [destruct (Z.eq_dec m m') as [-> | Hm];
       [destruct (Z.eq_dec y y') as [-> | Hy]|]|]; auto; left; lia.
Qed.

Lemma date_lt_or_le (a b : date) : date_lt a b \/ date_le b a.
Proof. rewrite date_lt_unfold, date_le_fields. lia. Qed.

(** Dates are discrete: nothing lies between a day and the day after it. *)
Lemma succ_day_least (s e : date) :
  valid_date e -> date_lt s e -> date_le (succ_day s) e.
Proof.
  intros [Hm Hd]. rewrite date_lt_unfold, date_le_fields. unfold succ_day.
  destruct (day s <? days_in_month (year s) (month s)) eqn:E; simpl; [lia|].
  apply Z.ltb_ge in E.
  destruct (month s <? 12) eqn:E'; simpl;
    [apply Z.ltb_lt in E' | apply Z.ltb_ge in E'].
  - intros [H | [Hy [H | [Hmm H]]]]; try lia.
    rewrite <- Hy, <- Hmm in Hd. lia.
  - intros [H | [Hy [H | [Hmm H]]]]; try lia.
    rewrite <- Hy, <- Hmm in Hd. lia.
Qed.

Lemma weekday_range (d : date) : 0 <= weekday d < 7.
Proof. unfold weekday. apply Z.mod_pos_bound. lia. Qed.

Lemma weekday_succ_day (d : date) :
  valid_date d -> weekday (succ_day d) = (weekday d + 1) mod 7.
Proof.
  intros H. unfold weekday. rewrite (toordinal_succ_day d H).
  rewrite Zplus_mod_idemp_l. f_equal. lia.
Qed.

Lemma valid_succ_days (k : nat) (d : date) :
  valid_date d -> valid_date (succ_days k d).
Proof.
  revert d. induction k as [|k IH]; intros d H; simpl; auto using valid_succ_day.
Qed.

Lemma toordinal_succ_days (k : nat) (d : date) :
  valid_date d -> toordinal (succ_days k d) = toordinal d + Z.of_nat k.
Proof.
  revert d. induction k as [|k IH]; intros d H; simpl succ_days.
  - lia.
  - rewrite IH by auto using valid_succ_day. rewrite toordinal_succ_day by exact H. lia.
Qed.

Lemma succ_days_le (k : nat) (d : date) : date_le d (succ_days k d).
Proof.
  revert d. induction k as [|k IH]; intros d; simpl.
  - apply date_le_refl.
  - eapply date_le_trans; [apply date_lt_le, succ_day_lt | apply IH].
Qed.

(** ** The business-day offset *)

Section BusinessDays.

Variable business_days : CustomBusinessDay.

Lemma next_on_offset_le (fuel : nat) (d : date) :
  date_le d (next_on_offset business_days fuel d).
Proof.
  revert d. induction fuel as [|fuel IH]; intros d; simpl.
  - apply date_le_refl.
  - destruct (is_on_offset business_days d); [apply date_le_refl|].
    eapply date_le_trans; [apply date_lt_le, succ_day_lt | apply IH].
Qed.

Lemma valid_next_on_offset (fuel : nat) (d : date) :
  valid_date d -> valid_date (next_on_offset business_days fuel d).
Proof.
  revert d. induction fuel as [|fuel IH]; intros d H; simpl; auto.
  destruct (is_on_offset business_days d); auto using valid_succ_day.
Qed.

Lemma rollforward_on_offset (d : date) :
  is_on_offset business_days d = true -> rollforward business_days d = d.
Proof. intros H. unfold rollforward. rewrite H. reflexivity. Qed.

Lemma rollforward_off_offset (d : date) :
  is_on_offset business_days d = false ->
  date_lt d (rollforward business_days d).
Proof.
  intros H. unfold rollforward. rewrite H.
  eapply date_lt_le_trans; [apply succ_day_lt | apply next_on_offset_le].
Qed.

Lemma rollforward_ge (d : date) : date_le d (rollforward business_days d).
Proof.
  destruct (is_on_offset business_days d) eqn:E.
  - rewrite rollforward_on_offset by exact E. apply date_le_refl.
  - apply date_lt_le, rollforward_off_offset, E.
Qed.

Lemma valid_rollforward (d : date) :
  valid_date d -> valid_date (rollforward business_days d).
Proof.
  intros H. unfold rollforward.
  destruct (is_on_offset business_days d); auto.
  apply valid_next_on_offset, valid_succ_day, H.
Qed.

(** The test of [is_business_day], [date == rollforward(date)], holds
    exactly on the dates that are on the offset. *)
Lemma is_business_day_on_offset (d : date) :
  is_business_day business_days d = is_on_offset business_days d.
Proof.
  unfold is_business_day.
  destruct (is_on_offset business_days d) eqn:E.
  - rewrite rollforward_on_offset by exact E. apply date_eqb_refl.
  - destruct (date_eqb d (rollforward business_days d)) eqn:E'; [|reflexivity].
    apply date_eqb_eq in E'.
    exfalso. eapply date_lt_neq; [apply rollforward_off_offset, E | exact E'].
Qed.

Lemma is_holiday_In (d : date) :
  is_holiday business_days d = true <-> In d (holidays business_days).
Proof.
  unfold is_holiday. rewrite existsb_exists. split.
  - intros [x [Hx E]]. apply date_eqb_eq in E. subst. exact Hx.
  - intros H. exists d. split; [exact H | apply date_eqb_refl].
Qed.

Lemma is_on_offset_iff (d : date) :
  is_on_offset business_days d = true <->
  weekday d <> 5 /\ weekday d <> 6 /\ ~ In d (holidays business_days).
Proof.
  unfold is_on_offset, weekmask.
  rewrite andb_true_iff, negb_true_iff, Z.ltb_lt, <- is_holiday_In.
  pose proof (weekday_range d).
  destruct (is_holiday business_days d); split; intros; try lia;
    intuition (try discriminate; try lia).
Qed.

Lemma is_on_offset_false_iff (d : date) :
  is_on_offset business_days d = false <->
  weekday d = 5 \/ weekday d = 6 \/ In d (holidays business_days).
Proof.
  unfold is_on_offset, weekmask.
  rewrite andb_false_iff, negb_false_iff, Z.ltb_ge, is_holiday_In.
  pose proof (weekday_range d) as Hr. split.
  - intros [Hw | Hh]; [|auto].
    assert (weekday d = 5 \/ weekday d = 6) as [E | E] by lia; auto.
  - intros [E | [E | Hh]]; [left; lia | left; lia | right; exact Hh].
Qed.

Lemma holiday_ordinal_le (d : date) :
  is_holiday business_days d = true ->
  toordinal d <= last_holiday_ordinal business_days.
Proof.
  rewrite is_holiday_In. unfold last_holiday_ordinal.
  induction (holidays business_days) as [|h l IH]; simpl; [tauto|].
  intros [-> | H]; [lia | specialize (IH H); lia].
Qed.

Lemma steps_left_zero (d : date) :
  steps_left business_days d <= 0 -> is_on_offset business_days d = true.
Proof.
  unfold steps_left, is_on_offset, weekmask.
  pose proof (weekday_range d).
  destruct (_ <? toordinal d) eqn:E; [apply Z.ltb_lt in E | apply Z.ltb_ge in E; lia].
  destruct (weekday d <? 5) eqn:W; [|lia]. intros _.
  destruct (is_holiday business_days d) eqn:Hh; [|reflexivity].
  apply holiday_ordinal_le in Hh. lia.
Qed.

Lemma steps_left_succ (d : date) :
  valid_date d -> is_on_offset business_days d = false ->
  steps_left business_days (succ_day d) <= steps_left business_days d - 1.
Proof.
  intros Hv Hoff. pose proof (steps_left_zero d) as Hz.
  unfold steps_left in *.
  rewrite (weekday_succ_day d Hv), (toordinal_succ_day d Hv).
  pose proof (weekday_range d).
  destruct (_ <? toordinal d) eqn:E;
    [apply Z.ltb_lt in E | apply Z.ltb_ge in E].
  - replace (_ <? toordinal d + 1) with true by (symmetry; apply Z.ltb_lt; lia).
    destruct (weekday d <? 5) eqn:W.
    + rewrite Hz in Hoff by lia. discriminate.
    + apply Z.ltb_ge in W.
      assert (weekday d = 5 \/ weekday d = 6) as [-> | ->] by lia;
        vm_compute; discriminate.
  - destruct (_ <? toordinal d + 1) eqn:E'; [|lia].
    apply Z.ltb_lt in E'.
    pose proof (Z.mod_pos_bound (weekday d + 1) 7 ltac:(lia)).
    destruct (_ <? 5) eqn:W; [lia | apply Z.ltb_ge in W; lia].
Qed.

Lemma next_on_offset_found (fuel : nat) (d : date) :
  valid_date d -> steps_left business_days d <= Z.of_nat fuel ->
  is_on_offset business_days (next_on_offset business_days fuel d) = true.
Proof.
  revert d. induction fuel as [|fuel IH]; intros d Hv Hs; simpl.
  - apply steps_left_zero. lia.
  - destruct (is_on_offset business_days d) eqn:E; [exact E|].
    apply IH; [apply valid_succ_day, Hv|].
    pose proof (steps_left_succ d Hv E). lia.
Qed.

(** The search of [rollforward] always ends on a business day. *)
Lemma rollforward_is_on_offset (d : date) :
  valid_date d ->
  is_on_offset business_days (rollforward business_days d) = true.
Proof.
  intros Hv. unfold rollforward.
  destruct (is_on_offset business_days d) eqn:E; [exact E|].
  apply next_on_offset_found; [apply valid_succ_day, Hv|].
  pose proof (steps_left_succ d Hv E) as H.
  assert (steps_left business_days d
          <= Z.max 3 (last_holiday_ordinal business_days + 3 - toordinal d)).
  { unfold steps_left. pose proof (weekday_range d).
    destruct (_ <? toordinal d);
      [destruct (weekday d <? 5) eqn:W; [|apply Z.ltb_ge in W]|]; lia. }
  unfold roll_fuel. lia.
Qed.

Lemma next_on_offset_skips (fuel : nat) (s e : date) :
  valid_date e -> date_le s e ->
  date_lt e (next_on_offset business_days fuel s) ->
  is_on_offset business_days e = false.
Proof.
  revert s. induction fuel as [|fuel IH]; intros s Hv Hle Hlt; simpl in Hlt.
  - exfalso. exact (date_lt_irrefl _ (date_le_lt_trans _ _ _ Hle Hlt)).
  - destruct (is_on_offset business_days s) eqn:E.
    + exfalso. exact (date_lt_irrefl _ (date_le_lt_trans _ _ _ Hle Hlt)).
    + apply date_le_unfold in Hle. destruct Hle as [Hle | <-]; [|exact E].
      apply (IH (succ_day s)); auto using succ_day_least.
Qed.

(** No business day lies between a date and the date it is rolled to. *)
Lemma rollforward_skips (d e : date) :
  valid_date e -> date_le d e -> date_lt e (rollforward business_days d) ->
  is_on_offset business_days e = false.
Proof.
  intros Hv Hle Hlt. unfold rollforward in Hlt.
  destruct (is_on_offset business_days d) eqn:E.
  - exfalso. exact (date_lt_irrefl _ (date_le_lt_trans _ _ _ Hle Hlt)).
  - apply date_le_unfold in Hle. destruct Hle as [Hle | <-]; [|exact E].
    eapply next_on_offset_skips; eauto using succ_day_least.
Qed.

End BusinessDays.

(** ** The holiday calendar *)

Lemma In_year_range (lo hi y : Z) : lo <= y <= hi -> In y (year_range lo hi).
Proof.
  intros H. unfold year_range. apply in_map_iff.
  exists (Z.to_nat (y - lo)). split; [lia|].
  apply in_seq. lia.
Qed.

Lemma easter_fields (y : Z) :
  year (easter y) = y /\ 3 <= month (easter y) /\ 1 <= day (easter y).
Proof.
  unfold easter. cbv zeta. cbn [year month day].
  set (g := y mod 19).
  set (h := (_ + 15) mod 30).
  assert (Hg : 0 <= g < 19) by (apply Z.mod_pos_bound; lia).
  assert (Hh : 0 <= h < 30) by (apply Z.mod_pos_bound; lia).
  clearbody g h.
  set (i := h - _).
  set (j := _ mod 7).
  assert (Hj : 0 <= j < 7) by (apply Z.mod_pos_bound; lia).
  clearbody j.
  assert (Hi : 0 <= i).
  { subst i.
    assert (Ha : h / 28 = 0 \/ (h / 28 = 1 /\ 28 <= h))
      by (Z.div_mod_to_equations; lia).
    assert (Hc : (21 - g) / 11 = 0 \/ (21 - g) / 11 = 1)
      by (Z.div_mod_to_equations; lia).
    destruct Ha as [Ha | [Ha Hge]]; rewrite Ha; [lia|].
    assert (Hb : 29 / (h + 1) = 0 \/ 29 / (h + 1) = 1).
    { assert (h = 28 \/ h = 29) as [-> | ->] by lia; [right | left]; reflexivity. }
    destruct Hb as [Hb | Hb], Hc as [Hc | Hc]; rewrite Hb, Hc; lia. }
  clearbody i.
  split; [reflexivity|]. split.
  - assert (0 <= (i - j + 26) / 30) by (apply Z.div_pos; lia). lia.
  - assert (0 <= (i - j + 27 + (i - j + 6) / 40) mod 31)
      by (apply Z.mod_pos_bound; lia).
    lia.
Qed.

Lemma year_pred_days_3 (d : date) :
  3 <= month d -> 1 <= day d ->
  year (pred_days 3 d) = year d /\ year (pred_days 2 d) = year d.
Proof.
  destruct d as [y m dd]; simpl. intros Hm Hd.
  unfold pred_day; simpl.
  repeat match goal with
         | |- context [if ?b then _ else _] => destruct b eqn:?; simpl
         end;
    ltb_to_Z; simpl in *; pose_month_bounds; lia.
Qed.

(** Every rule of the calendar gives, for reference year [y], a date of
    year [y] or (New Year's Day moved back to a Friday) of year [y - 1]. *)
Lemma holiday_in_year_year (h : Holiday) (y : Z) :
  In h PeruHolidayCalendar.rules ->
  y - 1 <= year (holiday_in_year h y) <= y.
Proof.
  assert (Heaster : forall k : nat, (k = 3 \/ k = 2)%nat ->
            year (pred_days k (apply_offset Easter (mkDate y 1 1))) = y).
  { intros k Hk. destruct (easter_fields y) as [Hy [Hm Hd]].
    cbn [apply_offset year].
    replace (date_ltb (mkDate y 1 1) (easter y)) with true.
    - destruct (year_pred_days_3 (easter y) Hm Hd) as [H3 H2].
      destruct Hk as [-> | ->]; congruence.
    - symmetry. apply (proj2 (date_lt_unfold _ _)). cbn [year month day]. lia. }
  intros H. simpl in H.
  repeat (destruct H as [<- | H]); try contradiction;
    unfold holiday_in_year, apply_rule;
    cbn [h_observance h_offset h_month h_day fold_left].
  3: { change (apply_offset (Day (-3)) ?d) with (pred_days 3 d).
       rewrite Heaster by auto. lia. }
  4: { change (apply_offset (Day (-2)) ?d) with (pred_days 2 d).
       rewrite Heaster by auto. lia. }
  3-13: simpl; lia.
  - unfold nearest_workday.
    destruct (_ =? 5); [simpl; lia|]. destruct (_ =? 6); simpl; lia.
  - unfold nearest_workday.
    destruct (_ =? 5); [simpl; lia|]. destruct (_ =? 6); simpl; lia.
Qed.

(** The dates the calendar lists: what the rules give inside the range
    1970-01-01 to 2200-12-31. *)
Lemma In_holidays (h : Holiday) (y : Z) :
  In h PeruHolidayCalendar.rules ->
  date_le AbstractHolidayCalendar.start_date (holiday_in_year h y) ->
  date_le (holiday_in_year h y) AbstractHolidayCalendar.end_date ->
  In (holiday_in_year h y) PeruHolidayCalendar.holidays.
Proof.
  intros Hh Hlo Hhi.
  unfold PeruHolidayCalendar.holidays, AbstractHolidayCalendar.holidays.
  apply in_flat_map. exists h. split; [exact Hh|].
  unfold holiday_dates. apply filter_In. split.
  - apply in_map, In_year_range.
    pose proof (holiday_in_year_year h y Hh).
    apply date_le_fields in Hlo, Hhi. simpl in Hlo, Hhi. simpl. lia.
  - unfold date_le in Hlo, Hhi. rewrite Hlo, Hhi. reflexivity.
Qed.

Lemma holidays_in_range (d : date) :
  In d PeruHolidayCalendar.holidays ->
  date_le AbstractHolidayCalendar.start_date d /\
  date_le d AbstractHolidayCalendar.end_date.
Proof.
  unfold PeruHolidayCalendar.holidays, AbstractHolidayCalendar.holidays.
  rewrite in_flat_map. intros [h [_ H]].
  unfold holiday_dates in H. apply filter_In in H. destruct H as [_ H].
  apply andb_true_iff in H. exact H.
Qed.

Lemma holidays_iff (d : date) :
  In d PeruHolidayCalendar.holidays <->
  exists h y, In h PeruHolidayCalendar.rules /\ d = holiday_in_year h y /\
              date_le AbstractHolidayCalendar.start_date d /\
              date_le d AbstractHolidayCalendar.end_date.
Proof.
  split.
  - intros H. destruct (holidays_in_range d H) as [Hlo Hhi].
    unfold PeruHolidayCalendar.holidays, AbstractHolidayCalendar.holidays in H.
    apply in_flat_map in H. destruct H as [h [Hh H]].
    unfold holiday_dates in H. apply filter_In in H. destruct H as [H _].
    apply in_map_iff in H. destruct H as [y [Hy _]].
    exists h, y. auto.
  - intros [h [y [Hh [-> [Hlo Hhi]]]]]. apply In_holidays; assumption.
Qed.

Example saturday_is_not_a_business_day :
  is_business_day offseter (mkDate 2021 7 31) = false.
Proof. vm_compute. reflexivity. Qed.

Example navidad_1969 :
  let navidad := mkHoliday "Navidad" 12 25 None [] in
  In navidad PeruHolidayCalendar.rules /\
  holiday_in_year navidad 1969 = mkDate 1969 12 25 /\
  weekday (mkDate 1969 12 25) = 3 /\
  is_business_day offseter (mkDate 1969 12 25) = true.
Proof.
  cbv zeta. split; [simpl; tauto|]. split; [reflexivity|].
  split; vm_compute; reflexivity.
Qed.

(** C4, as the claim states its last part: it does not hold.  Christmas
    Day 1969, a Thursday, is the date the rule "Navidad" gives for 1969, and
    [is_business_day] accepts it: the calendar lists no holiday before
    1970-01-01. *)
Lemma is_business_day_rule_dates_counterexample :
  ~ (forall (h : Holiday) (y : Z),
        In h PeruHolidayCalendar.rules ->
        is_business_day offseter (holiday_in_year h y) = false).
Proof.
  intros H.
  destruct navidad_1969 as [Hin [Hd [_ Hb]]].
  specialize (H _ 1969 Hin). rewrite Hd, Hb in H.
  exact (Bool.diff_true_false H).
Qed.

(** C4, amended: [is_business_day] is true exactly on the dates that are
    not a Saturday, not a Sunday and not a holiday listed by the calendar; it
    is false on every weekend day and on every date that one of the fifteen
    rules gives between 1970-01-01 and 2200-12-31, which are the dates the
    calendar lists. *)
Theorem is_business_day_spec (d : date) :
  (is_business_day offseter d = true <->
     weekday d <> 5 /\ weekday d <> 6 /\ ~ In d PeruHolidayCalendar.holidays)
  /\ (weekday d = 5 \/ weekday d = 6 -> is_business_day offseter d = false)
  /\ (forall (h : Holiday) (y : Z),
        In h PeruHolidayCalendar.rules -> d = holiday_in_year h y ->
        date_le AbstractHolidayCalendar.start_date d ->
        date_le d AbstractHolidayCalendar.end_date ->
        is_business_day offseter d = false)
  /\ (In d PeruHolidayCalendar.holidays <->
      exists h y, In h PeruHolidayCalendar.rules /\ d = holiday_in_year h y /\
                  date_le AbstractHolidayCalendar.start_date d /\
                  date_le d AbstractHolidayCalendar.end_date)
  /\ List.length PeruHolidayCalendar.rules = 15%nat.
Proof.
  assert (Hiff : is_business_day offseter d = true <->
            weekday d <> 5 /\ weekday d <> 6 /\ ~ In d PeruHolidayCalendar.holidays).
  { rewrite is_business_day_on_offset. apply (is_on_offset_iff offseter). }
  split; [exact Hiff|]. split; [|split; [|split]].
  - intros Hw. destruct (is_business_day offseter d); [|reflexivity].
    destruct (proj1 Hiff eq_refl) as [H5 [H6 _]]. tauto.
  - intros h y Hh Hd Hlo Hhi.
    destruct (is_business_day offseter d); [|reflexivity].
    destruct (proj1 Hiff eq_refl) as [_ [_ Hn]].
    exfalso. apply Hn. apply holidays_iff. exists h, y. auto.
  - apply holidays_iff.
  - reflexivity.
Qed.

Lemma is_business_day_spec_witness :
  is_business_day offseter (mkDate 2021 7 31) = false.
Proof.
  exact (proj1 (proj2 (is_business_day_spec (mkDate 2021 7 31)))
               (or_introl (eq_refl 5))).
Defined.

(** *** Dates [datetime] can hold *)

Lemma in_datetime_range_iff (d : date) :
  in_datetime_range d = true <-> valid_date d /\ MINYEAR <= year d <= MAXYEAR.
Proof.
  unfold in_datetime_range.
  rewrite !andb_true_iff, !Z.leb_le, valid_dateb_iff. tauto.
Qed.

Lemma checked_Some (d r : date) :
  checked d = Some r <-> in_datetime_range d = true /\ r = d.
Proof.
  unfold checked. destruct (in_datetime_range d); split.
  - intros H. injection H as <-. auto.
  - intros [_ ->]. reflexivity.
  - intros H. discriminate H.
  - intros [H _]. discriminate H.
Qed.

(** The last day a [datetime] can hold, a Friday, is a business day. *)
Lemma last_day_on_offset : is_on_offset offseter (mkDate MAXYEAR 12 31) = true.
Proof. vm_compute. reflexivity. Qed.

(** [rollforward] does not leave the range of [datetime]. *)
Lemma rollforward_in_range (d : date) :
  in_datetime_range d = true ->
  in_datetime_range (rollforward offseter d) = true.
Proof.
  rewrite !in_datetime_range_iff. intros [Hv [Hlo Hhi]].
  split; [apply valid_rollforward, Hv|].
  pose proof (rollforward_ge offseter d) as Hge. apply date_le_fields in Hge.
  split; [lia|].
  destruct (date_lt_or_le (mkDate MAXYEAR 12 31) (rollforward offseter d))
    as [H | H].
  - exfalso.
    assert (Hl : valid_date (mkDate MAXYEAR 12 31))
      by (apply valid_dateb_iff; vm_compute; reflexivity).
    assert (Hle : date_le d (mkDate MAXYEAR 12 31)).
    { apply date_le_fields. cbn [year month day]. destruct Hv as [Hm Hd].
      pose proof (days_in_month_bounds (year d) (month d)). lia. }
    pose proof (rollforward_skips offseter d _ Hl Hle H) as Hoff.
    rewrite last_day_on_offset in Hoff. discriminate Hoff.
  - apply date_le_fields in H. cbn [year month day] in H. lia.
Qed.

(** C7, as the claim states it, with the business days of the
    specification, which are not a weekend day and not a date of a holiday
    rule: it does not hold.  Christmas Day 1969 is the date the rule
    "Navidad" gives for 1969, and [rollforward] leaves it where it is
    instead of moving it to a later date: the calendar lists no holiday
    before 1970-01-01. *)
Lemma rollforward_rule_dates_counterexample :
  ~ (forall d : date,
        valid_date d ->
        (weekday d = 5 \/ weekday d = 6
         \/ exists (h : Holiday) (y : Z),
              In h PeruHolidayCalendar.rules /\ d = holiday_in_year h y) ->
        date_lt d (rollforward offseter d)).
Proof.
  intros H.
  destruct navidad_1969 as [Hin [Hd [_ Hb]]].
  assert (Hv : valid_date (mkDate 1969 12 25))
    by (apply valid_dateb_iff; vm_compute; reflexivity).
  specialize (H (mkDate 1969 12 25) Hv).
  assert (Hlt : date_lt (mkDate 1969 12 25) (rollforward offseter (mkDate 1969 12 25))).
  { apply H. right. right. eexists. exists 1969. split; [exact Hin|].
    symmetry. exact Hd. }
  unfold is_business_day in Hb. apply date_eqb_eq in Hb.
  exact (date_lt_neq _ _ Hlt Hb).
Qed.

(** C7, amended: rolling forward twice is rolling forward once.  The
    result is a business day: not a Saturday, not a Sunday, not a holiday
    listed by the calendar, hence none of the dates the fifteen rules give
    between 1970-01-01 and 2200-12-31.  [rollforward] leaves a date where it
    is exactly when the date is such a business day; any other date goes to
    a strictly later one, and every date in between is a weekend day or a
    listed holiday.  The result of rolling a [datetime] is a [datetime]. *)
Theorem rollforward_idempotent (d : date) :
  valid_date d ->
  let r := rollforward offseter d in
  rollforward offseter r = r
  /\ (weekday r <> 5 /\ weekday r <> 6 /\ ~ In r PeruHolidayCalendar.holidays)
  /\ (forall (h : Holiday) (y : Z),
        In h PeruHolidayCalendar.rules ->
        date_le AbstractHolidayCalendar.start_date r ->
        date_le r AbstractHolidayCalendar.end_date ->
        r <> holiday_in_year h y)
  /\ (r = d <->
      weekday d <> 5 /\ weekday d <> 6 /\ ~ In d PeruHolidayCalendar.holidays)
  /\ (is_business_day offseter d = true <-> r = d)
  /\ is_business_day offseter r = true
  /\ (weekday d = 5 \/ weekday d = 6 \/ In d PeruHolidayCalendar.holidays ->
      date_lt d r
      /\ forall e : date,
           valid_date e -> date_le d e -> date_lt e r ->
           (weekday e = 5 \/ weekday e = 6 \/ In e PeruHolidayCalendar.holidays)
           /\ is_business_day offseter e = false)
  /\ (in_datetime_range d = true -> in_datetime_range r = true).
Proof.
  intros Hv. cbv zeta.
  pose proof (rollforward_is_on_offset offseter d Hv) as Hon.
  assert (Hr : weekday (rollforward offseter d) <> 5
               /\ weekday (rollforward offseter d) <> 6
               /\ ~ In (rollforward offseter d) PeruHolidayCalendar.holidays).
  { apply (is_on_offset_iff offseter), Hon. }
  assert (Hfix : rollforward offseter d = d <-> is_on_offset offseter d = true).
  { split.
    - intros E. rewrite E in Hon. exact Hon.
    - apply rollforward_on_offset. }
  split; [apply rollforward_on_offset, Hon|].
  split; [exact Hr|].
  split; [|split; [|split; [|split; [|split]]]].
  - intros h y Hh Hlo Hhi E. destruct Hr as [_ [_ Hn]]. apply Hn.
    apply holidays_iff. exists h, y. auto.
  - rewrite Hfix. apply (is_on_offset_iff offseter).
  - rewrite is_business_day_on_offset. symmetry. exact Hfix.
  - rewrite is_business_day_on_offset. exact Hon.
  - intros Hoff. apply (is_on_offset_false_iff offseter) in Hoff. split.
    + apply rollforward_off_offset, Hoff.
    + intros e He Hle Hlt.
      pose proof (rollforward_skips offseter d e He Hle Hlt) as Hskip.
      split; [apply (is_on_offset_false_iff offseter), Hskip|].
      rewrite is_business_day_on_offset. exact Hskip.
  - apply rollforward_in_range.
Qed.

Lemma rollforward_idempotent_witness :
  valid_date (mkDate 2024 12 25) /\
  rollforward offseter (rollforward offseter (mkDate 2024 12 25)) =
  rollforward offseter (mkDate 2024 12 25) /\
  weekday (rollforward offseter (mkDate 2024 12 25)) <> 5.
Proof.
  assert (H : valid_date (mkDate 2024 12 25)) by (unfold valid_date; simpl; lia).
  pose proof (rollforward_idempotent (mkDate 2024 12 25) H) as [H1 [[H2 _] _]].
  split; [exact H|]. split; [exact H1 | exact H2].
Defined.

(** ** The payment-date generator *)

Section Generator.

Variable payment_day : Z.
Hypothesis payment_day_range : 1 <= payment_day <= 31.

Lemma add_month_fields (d : date) :
  1 <= month d <= 12 ->
  add_relativedelta d (mkRelativedelta (Some payment_day) 1) = months_ahead 1 payment_day d.
Proof.
  intros Hm. unfold add_relativedelta, months_ahead, month_index.
  cbn [rd_months rd_day]. change (1 =? 0) with false. cbv iota.
  replace (payment_day =? 0) with false by (symmetry; apply Z.eqb_neq; lia).
  destruct (12 <? month d + 1) eqn:E;
    [apply Z.ltb_lt in E | apply Z.ltb_ge in E].
  - assert (month d = 12) as Hd by lia. rewrite Hd.
    replace ((year d * 12 + (12 - 1) + 1) / 12) with (year d + 1)
      by (Z.div_mod_to_equations; lia).
    replace ((year d * 12 + (12 - 1) + 1) mod 12 + 1) with (12 + 1 - 12)
      by (Z.div_mod_to_equations; lia).
    reflexivity.
  - replace (month d + 1 <? 1) with false by (symmetry; apply Z.ltb_ge; lia).
    replace ((year d * 12 + (month d - 1) + 1) / 12) with (year d)
      by (Z.div_mod_to_equations; lia).
    replace ((year d * 12 + (month d - 1) + 1) mod 12 + 1) with (month d + 1)
      by (Z.div_mod_to_equations; lia).
    reflexivity.
Qed.

Lemma month_index_months_ahead (k t : Z) (d : date) :
  month_index (months_ahead k t d) = month_index d + k.
Proof.
  unfold months_ahead. set (idx := month_index d + k).
  unfold month_index at 1. cbn [year month].
  Z.div_mod_to_equations. lia.
Qed.

Lemma months_ahead_month_range (k t : Z) (d : date) :
  1 <= month (months_ahead k t d) <= 12.
Proof.
  unfold months_ahead. cbn [month]. Z.div_mod_to_equations. lia.
Qed.

Lemma months_ahead_months_ahead (j k t : Z) (d : date) :
  months_ahead j t (months_ahead k t d) = months_ahead (k + j) t d.
Proof.
  unfold months_ahead at 1. rewrite month_index_months_ahead.
  unfold months_ahead. rewrite Z.add_assoc. reflexivity.
Qed.

Lemma valid_months_ahead (k : Z) (d : date) :
  valid_date (months_ahead k payment_day d).
Proof.
  split; [apply months_ahead_month_range|].
  unfold months_ahead. cbn [year month day].
  match goal with
  | |- context [days_in_month ?a ?b] => pose proof (days_in_month_bounds a b)
  end.
  lia.
Qed.

Lemma months_ahead_lt (k : Z) (d : date) :
  1 <= month d <= 12 -> 0 < k -> date_lt d (months_ahead k payment_day d).
Proof.
  intros Hm Hk. apply date_lt_unfold.
  pose proof (month_index_months_ahead k payment_day d) as H.
  pose proof (months_ahead_month_range k payment_day d) as H'.
  unfold month_index in H. lia.
Qed.

Lemma valid_add_month (d : date) :
  valid_date d -> valid_date (add_relativedelta d (mkRelativedelta (Some payment_day) 1)).
Proof.
  intros [Hm _]. rewrite add_month_fields by exact Hm. apply valid_months_ahead.
Qed.

Lemma add_month_lt (d : date) :
  valid_date d -> date_lt d (add_relativedelta d (mkRelativedelta (Some payment_day) 1)).
Proof.
  intros [Hm _]. rewrite add_month_fields by exact Hm.
  apply months_ahead_lt; [exact Hm | lia].
Qed.

Variable business_days : CustomBusinessDay.

(** The [if] of the loop body is a plain [rollforward]. *)
Lemma next_payday_rollforward (p : date) :
  next_payday business_days payment_day p =
  rollforward business_days (add_relativedelta p (mkRelativedelta (Some payment_day) 1)).
Proof.
  unfold next_payday. cbv zeta. rewrite is_business_day_on_offset.
  destruct (is_on_offset business_days _) eqn:E; simpl; [|reflexivity].
  symmetry. apply rollforward_on_offset, E.
Qed.

Lemma valid_next_payday (p : date) :
  valid_date p -> valid_date (next_payday business_days payment_day p).
Proof.
  intros H. rewrite next_payday_rollforward.
  apply valid_rollforward, valid_add_month, H.
Qed.

Lemma next_payday_lt (p : date) :
  valid_date p -> date_lt p (next_payday business_days payment_day p).
Proof.
  intros H. rewrite next_payday_rollforward.
  eapply date_lt_le_trans; [apply add_month_lt, H | apply rollforward_ge].
Qed.



Lemma paydays_from_later (k : nat) (p : date) :
  valid_date p ->
  Forall (date_lt p) (paydays_from business_days payment_day k p).
Proof.
  revert p. induction k as [|k IH]; intros p Hv; simpl; constructor.
  - apply next_payday_lt, Hv.
  - eapply Forall_impl; [|apply IH, valid_next_payday, Hv].
    intros a Ha. eapply date_lt_trans; [apply next_payday_lt, Hv | exact Ha].
Qed.

Lemma paydays_from_sorted (k : nat) (p : date) :
  valid_date p ->
  StronglySorted date_lt (paydays_from business_days payment_day k p).
Proof.
  revert p. induction k as [|k IH]; intros p Hv; simpl; constructor.
  - apply IH, valid_next_payday, Hv.
  - apply paydays_from_later, valid_next_payday, Hv.
Qed.


Lemma paydays_from_valid (k : nat) (p : date) :
  valid_date p ->
  Forall valid_date (paydays_from business_days payment_day k p).
Proof.
  revert p. induction k as [|k IH]; intros p Hv; simpl; constructor.
  - apply valid_next_payday, Hv.
  - apply IH, valid_next_payday, Hv.
Qed.

(** The loop, with its mutable [payday] and [paydays], computes the
    recurrence, whatever [debug] is. *)
Lemma loop_body_fields (debug : bool) (s : loop_state) :
  payday (loop_body business_days payment_day debug s) =
    next_payday business_days payment_day (payday s)
  /\ paydays (loop_body business_days payment_day debug s) =
       paydays s ++ [next_payday business_days payment_day (payday s)].
Proof.
  unfold loop_body, next_payday. cbv zeta.
  destruct (negb (is_business_day business_days _)); simpl; auto.
Qed.

Lemma loop_paydays (debug : bool) (k : nat) (s : loop_state) :
  paydays (Nat.iter k (loop_body business_days payment_day debug) s) =
  paydays s ++ paydays_from business_days payment_day k (payday s).
Proof.
  revert s. induction k as [|k IH]; intros s.
  - simpl. rewrite app_nil_r. reflexivity.
  - rewrite Nat.iter_succ_r, IH.
    destruct (loop_body_fields debug s) as [-> ->].
    rewrite <- app_assoc. reflexivity.
Qed.

Lemma loop_stdout_quiet (k : nat) (s : loop_state) :
  stdout (Nat.iter k (loop_body business_days payment_day false) s) = stdout s.
Proof.
  induction k as [|k IH]; [reflexivity|].
  rewrite Nat.iter_succ. unfold loop_body at 1. cbv zeta.
  destruct (negb (is_business_day business_days _)); simpl; [|exact IH].
  rewrite app_nil_r. exact IH.
Qed.

End Generator.

Lemma get_payment_dates_paydays_from (buy_date : date) (payment_day timesteps : Z)
    (debug : bool) :
  fst (get_payment_dates buy_date payment_day timesteps debug) =
  paydays_from offseter payment_day (Z.to_nat timesteps)
    (add_relativedelta buy_date (mkRelativedelta (Some payment_day) 1)).
Proof.
  unfold get_payment_dates. cbv zeta. cbn [fst].
  rewrite loop_paydays. reflexivity.
Qed.

(** C1: the first date returned is the date two months after the purchase
    month, on [payment_day] (or the last day of a shorter month), rolled
    forward when it is not a business day.  The date one month after the
    purchase month is only the start of the loop: no returned date is that
    early. *)
Theorem first_payment_two_months_ahead (buy_date : date)
    (payment_day timesteps : Z) (debug : bool) :
  valid_date buy_date -> 1 <= payment_day <= 31 -> 1 <= timesteps ->
  let one_month := mkRelativedelta (Some payment_day) 1 in
  let start := add_relativedelta buy_date one_month in
  let theoretical := add_relativedelta start one_month in
  let l := fst (get_payment_dates buy_date payment_day timesteps debug) in
  start = months_ahead 1 payment_day buy_date
  /\ theoretical = months_ahead 2 payment_day buy_date
  /\ month_index theoretical = month_index buy_date + 2
  /\ day theoretical =
       Z.min (days_in_month (year theoretical) (month theoretical)) payment_day
  /\ hd_error l = Some (rollforward offseter theoretical)
  /\ (is_business_day offseter theoretical = true -> hd_error l = Some theoretical)
  /\ Forall (date_lt start) l.
Proof.
  intros Hv Hp Hn. cbv zeta.
  destruct Hv as [Hm Hd].
  rewrite (add_month_fields payment_day Hp buy_date Hm).
  rewrite (add_month_fields payment_day Hp (months_ahead 1 payment_day buy_date))
    by apply months_ahead_month_range.
  rewrite months_ahead_months_ahead. change (1 + 1) with 2.
  rewrite get_payment_dates_paydays_from.
  rewrite (add_month_fields payment_day Hp buy_date Hm).
  assert (Hhd : hd_error (paydays_from offseter payment_day (Z.to_nat timesteps)
                            (months_ahead 1 payment_day buy_date))
                = Some (rollforward offseter (months_ahead 2 payment_day buy_date))).
  { destruct (Z.to_nat timesteps) as [|k] eqn:E; [lia|]. simpl.
    rewrite next_payday_rollforward.
    rewrite (add_month_fields payment_day Hp) by apply months_ahead_month_range.
    rewrite months_ahead_months_ahead. reflexivity. }
  split; [reflexivity|]. split; [reflexivity|].
  split; [apply month_index_months_ahead|].
  split; [reflexivity|]. split; [exact Hhd|]. split.
  - intros Hb. rewrite Hhd. f_equal.
    unfold is_business_day in Hb. apply date_eqb_eq in Hb. congruence.
  - apply paydays_from_later; [exact Hp | apply valid_months_ahead, Hp].
Qed.

Lemma first_payment_two_months_ahead_witness :
  valid_date (mkDate 2024 1 1) /\ 1 <= 15 <= 31 /\ 1 <= 12 /\
  add_relativedelta
    (add_relativedelta (mkDate 2024 1 1) (mkRelativedelta (Some 15) 1))
    (mkRelativedelta (Some 15) 1) = months_ahead 2 15 (mkDate 2024 1 1).
Proof.
  assert (Hv : valid_date (mkDate 2024 1 1)) by (unfold valid_date; simpl; lia).
  assert (Hp : 1 <= 15 <= 31) by lia.
  assert (Hn : 1 <= 12) by lia.
  split; [exact Hv|]. split; [exact Hp|]. split; [exact Hn|].
  exact (proj1 (proj2
    (first_payment_two_months_ahead (mkDate 2024 1 1) 15 12 false Hv Hp Hn))).
Defined.

Example first_payment_2024 :
  hd_error (fst (get_payment_dates (mkDate 2024 1 1) 15 12 false)) =
  Some (mkDate 2024 3 15).
Proof. vm_compute. reflexivity. Qed.

(** ** Interest formulas *)

Section Interest.

#[local] Open Scope R_scope.

Lemma py_pow_nonzero (x : R) (n : Z) : x <> 0 -> py_pow x n = Some (powerRZ x n).
Proof. intros H. unfold py_pow. destruct (Req_dec_T x 0); tauto. Qed.

Lemma py_div_nonzero (x y : R) : y <> 0 -> py_div x y = Some (x / y).
Proof. intros H. unfold py_div. destruct (Req_dec_T y 0); tauto. Qed.

Lemma py_div_zero (x : R) : py_div x 0 = None.
Proof. unfold py_div. destruct (Req_dec_T 0 0); tauto. Qed.

Lemma py_rpow_pos (x y : R) : 0 < x -> py_rpow x y = Some (Rpower x y).
Proof. intros H. unfold py_rpow. destruct (Rlt_dec 0 x); tauto. Qed.

Lemma Rpower_pos (x y : R) : 0 < Rpower x y.
Proof. unfold Rpower. apply exp_pos. Qed.

(** The [k]-th power undoes the [k]-th root. *)
Lemma root_pow (x : R) (k : positive) :
  0 < x -> powerRZ (Rpower x (1 / IZR (Zpos k))) (Zpos k) = x.
Proof.
  intros Hx. cbn [powerRZ].
  rewrite <- Rpower_pow by apply Rpower_pos.
  rewrite Rpower_mult, INR_IZR_INZ, positive_nat_Z.
  replace (1 / IZR (Zpos k) * IZR (Zpos k)) with 1.
  - apply Rpower_1, Hx.
  - field. apply not_0_IZR. discriminate.
Qed.

(** C5: [p_given_f] undoes [f_given_p] and [f_given_p] undoes [p_given_f],
    in exact arithmetic, for every rate above -1 and every whole number of
    periods (the claim asks only for a rate other than 0 and at least one
    period). *)
Theorem p_given_f_f_given_p (X r : R) (n : Z) :
  -1 < r ->
  (fv <- f_given_p X r n ;; p_given_f fv r n) = Some X
  /\ (pv <- p_given_f X r n ;; f_given_p pv r n) = Some X.
Proof.
  intros Hr.
  assert (Hb : 1 + r <> 0) by lra.
  assert (Hp : powerRZ (1 + r) n <> 0) by (apply powerRZ_NOR, Hb).
  unfold f_given_p, p_given_f.
  rewrite !(py_pow_nonzero _ n Hb). cbn [bind].
  rewrite !(py_div_nonzero 1 _ Hp). cbn [bind].
  rewrite ?(py_pow_nonzero _ n Hb). cbn [bind].
  unfold times, number_amount.
  split; f_equal; field; exact Hp.
Qed.

Lemma p_given_f_f_given_p_witness :
  -1 < 18 / 100 /\
  (fv <- f_given_p 10000 (18 / 100) 12 ;; p_given_f fv (18 / 100) 12) = Some 10000.
Proof.
  assert (H : -1 < 18 / 100) by lra.
  split; [exact H|].
  exact (proj1 (p_given_f_f_given_p 10000 (18 / 100) 12 H)).
Defined.

(** C6: converting an annual rate to a monthly rate and back returns it, in
    exact arithmetic; the converters follow [(1 + big) = (1 + small) ^ k]
    with [k] = 12 between year and month, 30 between month and day, 360
    between year and day. *)
Theorem EAR_EMR_round_trip (r : R) :
  -1 < r ->
  (m <- EAR_to_EMR r ;; EMR_to_EAR m) = Some r
  /\ (exists m, EAR_to_EMR r = Some m /\ 1 + r = powerRZ (1 + m) 12)
  /\ (exists a, EMR_to_EAR r = Some a /\ 1 + a = powerRZ (1 + r) 12)
  /\ (exists d, EMR_to_EDR r = Some d /\ 1 + r = powerRZ (1 + d) 30)
  /\ (exists a, EDR_to_EAR r = Some a /\ 1 + a = powerRZ (1 + r) 360)
  /\ (m <- EAR_to_EMR r ;; d <- EMR_to_EDR m ;; EDR_to_EAR d) = Some r.
Proof.
  intros Hr.
  assert (Hb : 0 < 1 + r) by lra.
  assert (Hroot : forall k : positive,
            powerRZ (1 + (Rpower (1 + r) (1 / IZR (Zpos k)) - 1)) (Zpos k) = 1 + r).
  { intros k. replace (1 + (Rpower (1 + r) (1 / IZR (Zpos k)) - 1))
      with (Rpower (1 + r) (1 / IZR (Zpos k))) by ring.
    apply root_pow, Hb. }
  assert (Hnz : forall y, 1 + (Rpower (1 + r) y - 1) <> 0).
  { intros y. pose proof (Rpower_pos (1 + r) y). lra. }
  unfold EAR_to_EMR, EMR_to_EAR, EMR_to_EDR, EDR_to_EAR.
  rewrite !(py_rpow_pos (1 + r)) by exact Hb. cbn [bind].
  rewrite !(py_pow_nonzero (1 + r)) by lra.
  rewrite (py_pow_nonzero _ 12 (Hnz _)). cbn [bind].
  split; [f_equal; rewrite (Hroot 12%positive); ring|].
  split; [eexists; split; [reflexivity | symmetry; apply (Hroot 12%positive)]|].
  split; [eexists; split; [reflexivity | ring]|].
  split; [eexists; split; [reflexivity | symmetry; apply (Hroot 30%positive)]|].
  split; [eexists; split; [reflexivity | ring]|].
  set (m := Rpower (1 + r) (1 / 12) - 1).
  assert (Hm : 0 < 1 + m) by (subst m; pose proof (Rpower_pos (1 + r) (1 / 12)); lra).
  rewrite (py_rpow_pos (1 + m)) by exact Hm. cbn [bind].
  set (d := Rpower (1 + m) (1 / 30) - 1).
  assert (Hd : 1 + d = Rpower (1 + m) (1 / 30)) by (subst d; ring).
  rewrite py_pow_nonzero by (rewrite Hd; pose proof (Rpower_pos (1 + m) (1 / 30)); lra).
  cbn [bind]. f_equal.
  rewrite Hd. replace (1 + m) with (Rpower (1 + r) (1 / 12)) by (subst m; ring).
  rewrite Rpower_mult.
  replace (1 / 12 * (1 / 30)) with (1 / IZR (Zpos 360)) by (simpl; field).
  rewrite (root_pow (1 + r) 360 Hb). ring.
Qed.

Lemma EAR_EMR_round_trip_witness :
  -1 < 18 / 100 /\ (m <- EAR_to_EMR (18 / 100) ;; EMR_to_EAR m) = Some (18 / 100).
Proof.
  assert (H : -1 < 18 / 100) by lra.
  split; [exact H|].
  exact (proj1 (EAR_EMR_round_trip (18 / 100) H)).
Defined.

(** C8: for a rate other than 0 (and other than -1, where the formula
    itself divides by zero), [p_given_a] returns
    [A * ((1 + i) ^ n - 1) / (i * (1 + i) ^ n)]; at rate 0 the division
    raises: there is no branch returning [A * n]. *)
Theorem p_given_a_formula (A i : R) (n : Z) :
  (i <> 0 -> i <> -1 ->
   p_given_a A i n =
   Some (A * (powerRZ (1 + i) n - 1) / (i * powerRZ (1 + i) n)))
  /\ p_given_a A 0 n = None.
Proof.
  unfold p_given_a. split.
  - intros Hi Hr.
    assert (Hb : 1 + i <> 0) by lra.
    rewrite (py_pow_nonzero _ n Hb). cbn [bind].
    apply py_div_nonzero.
    apply Rmult_integral_contrapositive_currified; [exact Hi|].
    apply powerRZ_NOR, Hb.
  - rewrite py_pow_nonzero by lra. cbn [bind].
    rewrite Rmult_0_l. apply py_div_zero.
Qed.

Lemma p_given_a_formula_witness :
  p_given_a 100 (1 / 100) 12 =
  Some (100 * (powerRZ (1 + 1 / 100) 12 - 1) / (1 / 100 * powerRZ (1 + 1 / 100) 12))
  /\ p_given_a 100 0 12 = None.
Proof.
  split.
  - apply (proj1 (p_given_a_formula 100 (1 / 100) 12)); lra.
  - exact (proj2 (p_given_a_formula 100 0 12)).
Defined.

(** ** The payment-amount solver *)

Lemma equation_fold (capital i_edr : R) (buy_date : date)
    (payment_dates : list date) (e0 : R -> R) :
  -1 < i_edr ->
  exists Eq,
    fold_left
      (fun Eq date =>
         e <- Eq ;;
         let days := days_between buy_date date in
         pv <- p_given_f F_sym i_edr days ;;
         Some (fun F => e F - pv F))
      payment_dates (Some e0) = Some Eq
    /\ forall F,
         Eq F = e0 F -
                Rsum (map (fun date =>
                             F * (1 / powerRZ (1 + i_edr) (days_between buy_date date)))
                          payment_dates).
Proof.
  intros Hr. assert (Hb : 1 + i_edr <> 0) by lra.
  revert e0. induction payment_dates as [|date l IH]; intros e0.
  - exists e0. split; [reflexivity|]. intros F. simpl. ring.
  - cbn [fold_left bind]. cbv zeta. unfold p_given_f at 2.
    rewrite (py_pow_nonzero _ _ Hb). cbn [bind].
    rewrite py_div_nonzero by (apply powerRZ_NOR, Hb). cbn [bind].
    destruct (IH (fun F => e0 F -
                times F_sym (1 / powerRZ (1 + i_edr) (days_between buy_date date)) F))
      as [Eq [HEq Hval]].
    exists Eq. split; [exact HEq|].
    intros F. rewrite Hval. unfold times, expression_amount, F_sym.
    simpl. ring.
Qed.

Lemma equation_value (capital i_edr : R) (buy_date : date)
    (payment_dates : list date) :
  -1 < i_edr ->
  exists Eq,
    equation capital i_edr buy_date payment_dates = Some Eq
    /\ forall F,
         Eq F = capital -
                Rsum (map (fun date =>
                             F * (1 / powerRZ (1 + i_edr) (days_between buy_date date)))
                          payment_dates).
Proof.
  intros Hr. unfold equation.
  exact (equation_fold capital i_edr buy_date payment_dates (fun _ => capital) Hr).
Qed.

(** C2: the amounts returned are [round(F, 2)] and
    [round(F + (F - round(F, 2)) * N, 2)], where [F] is the value the solver
    returns for the equation [capital - sum of F / (1 + i) ^ days = 0] and [N]
    is the number of payment dates. *)
Theorem calculate_payment_amount_rounding
    (nsolve : (R -> R) -> R -> option R) (round2 : R -> R)
    (capital i_edr : R) (buy_date : date) (payment_dates : list date) :
  -1 < i_edr ->
  exists Eq,
    equation capital i_edr buy_date payment_dates = Some Eq
    /\ (forall F,
          Eq F = capital -
                 Rsum (map (fun date =>
                              F * (1 / powerRZ (1 + i_edr) (days_between buy_date date)))
                           payment_dates))
    /\ (forall F_val,
          nsolve Eq 1 = Some F_val ->
          calculate_payment_amount nsolve round2 capital i_edr buy_date payment_dates =
          Some (round2 F_val,
                round2 (F_val + (F_val - round2 F_val)
                                * INR (List.length payment_dates))))
    /\ (nsolve Eq 1 = None ->
        calculate_payment_amount nsolve round2 capital i_edr buy_date payment_dates =
        None).
Proof.
  intros Hr.
  destruct (equation_value capital i_edr buy_date payment_dates Hr) as [Eq [HEq Hval]].
  exists Eq. split; [exact HEq|]. split; [exact Hval|].
  unfold calculate_payment_amount. rewrite HEq. cbn [bind].
  split.
  - intros F_val HF. rewrite HF. reflexivity.
  - intros HF. rewrite HF. reflexivity.
Qed.

Lemma calculate_payment_amount_rounding_witness :
  -1 < 0 /\
  exists Eq,
    equation 10000 0 (mkDate 2024 1 1) [mkDate 2024 3 15; mkDate 2024 4 15] = Some Eq
    /\ forall F_val,
         newton_step Eq 1 = Some F_val ->
         calculate_payment_amount newton_step round_cents 10000 0 (mkDate 2024 1 1)
           [mkDate 2024 3 15; mkDate 2024 4 15] =
         Some (round_cents F_val,
               round_cents (F_val + (F_val - round_cents F_val) * INR 2)).
Proof.
  assert (H : -1 < 0) by lra.
  split; [exact H|].
  destruct (calculate_payment_amount_rounding newton_step round_cents 10000 0
              (mkDate 2024 1 1) [mkDate 2024 3 15; mkDate 2024 4 15] H)
    as [Eq [HEq [_ [Hsome _]]]].
  exists Eq. split; [exact HEq | exact Hsome].
Defined.

Lemma Rsum_scale (F : R) (c : date -> R) (l : list date) :
  Rsum (map (fun date => F * c date) l) = F * Rsum (map c l).
Proof.
  unfold Rsum. induction l as [|d l IH]; simpl; [ring|].
  rewrite IH. ring.
Qed.

Lemma Rsum_pos (c : date -> R) (l : list date) :
  (forall d, 0 < c d) -> l <> [] -> 0 < Rsum (map c l).
Proof.
  intros Hc Hne. unfold Rsum. destruct l as [|d l]; [contradiction|]. clear Hne.
  simpl. pose proof (Hc d).
  assert (0 <= fold_right Rplus 0 (map c l)).
  { induction l as [|e l IH]; simpl; [lra|]. pose proof (Hc e). lra. }
  lra.
Qed.

(** With [newton_step] for the solver, the value found is the root of the
    equation, whenever there is at least one payment date. *)
Lemma newton_step_root (capital i_edr : R) (buy_date : date)
    (payment_dates : list date) :
  -1 < i_edr -> payment_dates <> [] ->
  exists Eq F_val,
    equation capital i_edr buy_date payment_dates = Some Eq
    /\ newton_step Eq 1 = Some F_val
    /\ Eq F_val = 0.
Proof.
  intros Hr Hne.
  destruct (equation_value capital i_edr buy_date payment_dates Hr) as [Eq [HEq Hval]].
  set (c := fun date => 1 / powerRZ (1 + i_edr) (days_between buy_date date)).
  set (S := Rsum (map c payment_dates)).
  assert (HS : 0 < S).
  { apply Rsum_pos; [|exact Hne]. intros d. unfold c.
    apply Rdiv_lt_0_compat; [lra|]. apply powerRZ_lt. lra. }
  assert (Hlin : forall F, Eq F = capital - F * S).
  { intros F. rewrite Hval. unfold S. rewrite <- Rsum_scale. reflexivity. }
  exists Eq, (capital / S). split; [exact HEq|]. split.
  - unfold newton_step. rewrite py_div_nonzero by (rewrite !Hlin; lra).
    cbn [bind]. f_equal. rewrite !Hlin. field. lra.
  - rewrite Hlin. field. lra.
Qed.

End Interest.

(** ** Determinism *)

(** C9: both functions are functions of their arguments alone, and [debug]
    changes what is printed, never the list returned: without it nothing
    is printed. *)
Theorem get_payment_dates_deterministic :
  (forall (buy_date : date) (payment_day timesteps : Z) (debug : bool),
      fst (get_payment_dates buy_date payment_day timesteps debug) =
      fst (get_payment_dates buy_date payment_day timesteps false))
  /\ (forall (buy_date : date) (payment_day timesteps : Z),
         snd (get_payment_dates buy_date payment_day timesteps false) = [])
  /\ (forall (buy_date buy_date' : date) (payment_day payment_day' : Z)
             (timesteps timesteps' : Z) (debug debug' : bool),
         buy_date = buy_date' -> payment_day = payment_day' ->
         timesteps = timesteps' ->
         fst (get_payment_dates buy_date payment_day timesteps debug) =
         fst (get_payment_dates buy_date' payment_day' timesteps' debug'))
  /\ (forall (nsolve : (R -> R) -> R -> option R) (round2 : R -> R)
             (capital capital' i_edr i_edr' : R) (buy_date buy_date' : date)
             (payment_dates payment_dates' : list date),
         capital = capital' -> i_edr = i_edr' -> buy_date = buy_date' ->
         payment_dates = payment_dates' ->
         calculate_payment_amount nsolve round2 capital i_edr buy_date payment_dates =
         calculate_payment_amount nsolve round2 capital' i_edr' buy_date' payment_dates').
Proof.
  assert (Hdebug : forall b p n dbg,
            fst (get_payment_dates b p n dbg) = fst (get_payment_dates b p n false)).
  { intros b p n dbg. rewrite !get_payment_dates_paydays_from. reflexivity. }
  split; [exact Hdebug|]. split; [|split].
  - intros b p n. unfold get_payment_dates. cbv zeta. cbn [snd].
    apply loop_stdout_quiet.
  - intros b b' p p' n n' dbg dbg' -> -> ->.
    rewrite (Hdebug b' p' n' dbg), (Hdebug b' p' n' dbg'). reflexivity.
  - intros nsolve round2 c c' i i' b b' l l' -> -> -> ->. reflexivity.
Qed.

Lemma get_payment_dates_deterministic_witness :
  fst (get_payment_dates (mkDate 2021 5 10) 31 3 true) =
  fst (get_payment_dates (mkDate 2021 5 10) 31 3 false).
Proof.
  exact (proj1 get_payment_dates_deterministic (mkDate 2021 5 10) 31 3 true).
Defined.

(** ** How far [rollforward] moves a date *)

Lemma check_years : forallb check_year (year_range 1969 2201) = true.
Proof. vm_compute. reflexivity. Qed.

Lemma holidays_inv (d : date) :
  In d PeruHolidayCalendar.holidays ->
  exists h y, In h PeruHolidayCalendar.rules /\ In y (year_range 1969 2201) /\
              d = holiday_in_year h y.
Proof.
  unfold PeruHolidayCalendar.holidays, AbstractHolidayCalendar.holidays.
  rewrite in_flat_map. intros [h [Hh H]].
  unfold holiday_dates in H. apply filter_In in H. destruct H as [H _].
  apply in_map_iff in H. destruct H as [y [Hy Hin]].
  exists h, y. auto.
Qed.

Lemma in_year_rule_dates (h : Holiday) (y : Z) :
  In h PeruHolidayCalendar.rules -> In (holiday_in_year h y) (year_rule_dates y).
Proof.
  intros H. unfold year_rule_dates.
  exact (in_map (fun h => holiday_in_year h y) _ _ H).
Qed.

(** A listed holiday of year [y - 1], [y] or [y + 1] is among the dates the
    rules give for the reference years [y - 1] to [y + 2]. *)
Lemma holiday_around (e : date) (y : Z) :
  In e PeruHolidayCalendar.holidays -> y - 1 <= year e <= y + 1 ->
  In e (flat_map year_rule_dates [y - 1; y; y + 1; y + 2]).
Proof.
  intros H Hy. apply holidays_iff in H.
  destruct H as [h [y' [Hh [-> _]]]].
  pose proof (holiday_in_year_year h y' Hh) as Hy'.
  apply in_flat_map. exists y'. split; [|apply in_year_rule_dates, Hh].
  simpl. lia.
Qed.

Lemma succ_days_add (a k : nat) (d : date) :
  succ_days (a + k) d = succ_days k (succ_days a d).
Proof.
  revert d. induction a as [|a IH]; intros d; simpl; [reflexivity | apply IH].
Qed.

Lemma succ_days_S (k : nat) (d : date) :
  succ_days (S k) d = succ_day (succ_days k d).
Proof.
  replace (S k) with (k + 1)%nat by lia. rewrite succ_days_add. reflexivity.
Qed.

Lemma offseter_holidays : holidays offseter = PeruHolidayCalendar.holidays.
Proof. reflexivity. Qed.

Lemma check_year_true (y : Z) (h : date) :
  check_year y = true -> In h (year_rule_dates y) ->
  exists k : nat,
    (1 <= k <= 4)%nat /\ weekday (succ_days k h) < 5
    /\ y - 1 <= year (succ_days k h) <= y + 1
    /\ ~ In (succ_days k h) (flat_map year_rule_dates [y - 1; y; y + 1; y + 2]).
Proof.
  unfold check_year. cbv zeta. intros Hc Hh.
  rewrite forallb_forall in Hc. specialize (Hc h Hh).
  apply existsb_exists in Hc. destruct Hc as [k [Hk Hc]].
  rewrite !andb_true_iff, negb_true_iff, Z.ltb_lt, !Z.leb_le in Hc.
  destruct Hc as [[[Hwd Hlo] Hhi] Hnot].
  exists k. split; [simpl in Hk; lia|]. split; [exact Hwd|]. split; [lia|].
  intros Hin.
  assert (existsb (date_eqb (succ_days k h))
            (flat_map year_rule_dates [y - 1; y; y + 1; y + 2]) = true) as Hex.
  { apply existsb_exists. eexists. split; [exact Hin | apply date_eqb_refl]. }
  congruence.
Qed.

(** After a listed holiday, a business day comes within four days. *)
Lemma business_day_after_holiday (w : date) :
  In w PeruHolidayCalendar.holidays ->
  exists k : nat, (1 <= k <= 4)%nat /\ is_on_offset offseter (succ_days k w) = true.
Proof.
  intros Hw. destruct (holidays_inv w Hw) as [h [y [Hh [Hy ->]]]].
  assert (Hc : check_year y = true).
  { pose proof check_years as Hc. rewrite forallb_forall in Hc. exact (Hc y Hy). }
  destruct (check_year_true y _ Hc (in_year_rule_dates h y Hh))
    as [k [Hk [Hwd [Hyr Hnot]]]].
  exists k. split; [exact Hk|].
  apply (is_on_offset_iff offseter).
  pose proof (weekday_range (succ_days k (holiday_in_year h y))).
  split; [lia|]. split; [lia|].
  rewrite offseter_holidays. intros E. apply Hnot.
  apply (holiday_around _ y); assumption.
Qed.

(** From any date, a business day comes within six days. *)
Lemma business_day_within_six (d : date) :
  valid_date d ->
  exists k : nat, (k <= 6)%nat /\ is_on_offset offseter (succ_days k d) = true.
Proof.
  intros Hv.
  assert (Hwk : exists a : nat, (a <= 2)%nat /\ weekday (succ_days a d) < 5).
  { pose proof (weekday_range d) as Hr.
    pose proof (weekday_succ_day d Hv) as H1.
    pose proof (weekday_succ_day (succ_day d) (valid_succ_day d Hv)) as H2.
    destruct (Z_lt_le_dec (weekday d) 5) as [H | H].
    - exists 0%nat. split; [lia | exact H].
    - assert (weekday d = 5 \/ weekday d = 6) as [E | E] by lia.
      + exists 2%nat. split; [lia|]. simpl. rewrite H2, H1, E. reflexivity.
      + exists 1%nat. split; [lia|]. simpl. rewrite H1, E. reflexivity. }
  destruct Hwk as [a [Ha Hwd]].
  destruct (is_holiday offseter (succ_days a d)) eqn:E.
  - apply is_holiday_In in E. rewrite offseter_holidays in E.
    destruct (business_day_after_holiday _ E) as [k [Hk Hon]].
    exists (a + k)%nat. split; [lia|]. rewrite succ_days_add. exact Hon.
  - exists a. split; [lia|]. unfold is_on_offset, weekmask.
    rewrite E. apply andb_true_iff. split; [apply Z.ltb_lt, Hwd | reflexivity].
Qed.

Lemma rollforward_within_six (d : date) :
  valid_date d ->
  exists k : nat, (k <= 6)%nat /\ date_le (rollforward offseter d) (succ_days k d).
Proof.
  intros Hv. destruct (business_day_within_six d Hv) as [k [Hk Hon]].
  exists k. split; [exact Hk|].
  destruct (date_lt_or_le (succ_days k d) (rollforward offseter d)) as [H | H];
    [|exact H].
  pose proof (rollforward_skips offseter d (succ_days k d)
                (valid_succ_days k d Hv) (succ_days_le k d) H) as Hoff.
  congruence.
Qed.

Lemma date_le_month_index (a b : date) :
  1 <= month a <= 12 -> 1 <= month b <= 12 ->
  date_le a b -> month_index a <= month_index b.
Proof. rewrite date_le_fields. unfold month_index. lia. Qed.

Lemma succ_days_month_index (k : nat) (d : date) :
  valid_date d -> (k <= 27)%nat ->
  valid_date (succ_days k d)
  /\ (month_index (succ_days k d) = month_index d
      \/ (month_index (succ_days k d) = month_index d + 1
          /\ day (succ_days k d) <= Z.of_nat k)).
Proof.
  intros Hv. induction k as [|k IH]; intros Hk.
  - simpl. auto.
  - destruct IH as [Hve IH]; [lia|]. rewrite succ_days_S.
    split; [apply valid_succ_day, Hve|].
    set (e := succ_days k d) in *. destruct Hve as [Hm Hd].
    pose proof (days_in_month_bounds (year e) (month e)).
    unfold succ_day, month_index in *.
    destruct (day e <? days_in_month (year e) (month e)) eqn:E1;
      [apply Z.ltb_lt in E1 | apply Z.ltb_ge in E1]; cbn [year month day].
    + lia.
    + destruct (month e <? 12) eqn:E2;
        [apply Z.ltb_lt in E2 | apply Z.ltb_ge in E2]; cbn [year month day]; lia.
Qed.

(** [rollforward] leaves a date in its month or moves it to the next. *)
Lemma rollforward_month_index (d : date) :
  valid_date d ->
  month_index (rollforward offseter d) = month_index d
  \/ month_index (rollforward offseter d) = month_index d + 1.
Proof.
  intros Hv. destruct (rollforward_within_six d Hv) as [k [Hk Hle]].
  destruct (succ_days_month_index k d Hv ltac:(lia)) as [[Hm _] Hidx].
  pose proof (valid_rollforward offseter d Hv) as [Hm' _].
  pose proof (date_le_month_index _ _ Hm' Hm Hle).
  pose proof (date_le_month_index _ _ (proj1 Hv) Hm' (rollforward_ge offseter d)).
  lia.
Qed.

(** ** The next date is computed from the adjusted date *)

Lemma paydays_from_step (business_days : CustomBusinessDay) (payment_day : Z)
    (k i : nat) (p a b : date) :
  nth_error (paydays_from business_days payment_day k p) i = Some a ->
  nth_error (paydays_from business_days payment_day k p) (S i) = Some b ->
  b = next_payday business_days payment_day a.
Proof.
  revert p i. induction k as [|k IH]; intros p i Ha Hb.
  - destruct i; discriminate.
  - destruct i as [|i].
    + simpl in Ha. injection Ha as <-.
      destruct k as [|k]; [discriminate|].
      simpl in Hb. injection Hb as <-. reflexivity.
    + exact (IH _ i Ha Hb).
Qed.

(** The dates that follow depend on the month of [payday] only. *)
Lemma paydays_from_same_month (business_days : CustomBusinessDay)
    (payment_day : Z) (k : nat) (p q : date) :
  add_relativedelta p (mkRelativedelta (Some payment_day) 1) =
  add_relativedelta q (mkRelativedelta (Some payment_day) 1) ->
  paydays_from business_days payment_day k p =
  paydays_from business_days payment_day k q.
Proof.
  intros H. destruct k as [|k]; [reflexivity|].
  simpl. unfold next_payday. rewrite H. reflexivity.
Qed.

Lemma months_ahead_same_index (k t : Z) (p q : date) :
  month_index p = month_index q -> months_ahead k t p = months_ahead k t q.
Proof. intros H. unfold months_ahead. rewrite H. reflexivity. Qed.

(** C10: each date after the first is one month past the adjusted date
    before it, not past that date's theoretical date.  An adjustment stays
    in the month or reaches the next one.  When it stays, the dates that
    follow are those that follow the theoretical date; when it reaches the
    next month, they are those that follow the theoretical date of one month
    later. *)
Theorem next_payday_from_adjusted (payment_day : Z) :
  1 <= payment_day <= 31 ->
  let one_month := mkRelativedelta (Some payment_day) 1 in
  (forall (buy_date : date) (timesteps : Z) (debug : bool) (i : nat) (a b : date),
      let l := fst (get_payment_dates buy_date payment_day timesteps debug) in
      nth_error l i = Some a -> nth_error l (S i) = Some b ->
      b = rollforward offseter (add_relativedelta a one_month))
  /\ (forall t : date,
         valid_date t ->
         let a := rollforward offseter t in
         (month_index a = month_index t \/ month_index a = month_index t + 1)
         /\ (month_index a = month_index t ->
             add_relativedelta a one_month = add_relativedelta t one_month
             /\ forall k : nat,
                  paydays_from offseter payment_day k a =
                  paydays_from offseter payment_day k t)
         /\ (month_index a <> month_index t ->
             add_relativedelta a one_month =
               add_relativedelta (add_relativedelta t one_month) one_month
             /\ forall k : nat,
                  paydays_from offseter payment_day k a =
                  paydays_from offseter payment_day k
                    (add_relativedelta t one_month))).
Proof.
  intros Hp. cbv zeta. split.
  - intros buy_date timesteps debug i a b.
    rewrite get_payment_dates_paydays_from. intros Ha Hb.
    rewrite <- next_payday_rollforward. eapply paydays_from_step; eassumption.
  - intros t Hv.
    pose proof (rollforward_month_index t Hv) as Hidx.
    pose proof (valid_rollforward offseter t Hv) as [Hma _].
    destruct Hv as [Hmt _].
    assert (Hshift : forall p q : date,
              1 <= month p <= 12 -> 1 <= month q <= 12 ->
              month_index p = month_index q ->
              add_relativedelta p (mkRelativedelta (Some payment_day) 1) =
              add_relativedelta q (mkRelativedelta (Some payment_day) 1)).
    { intros p q Hmp Hmq E.
      rewrite !(add_month_fields payment_day Hp) by assumption.
      apply months_ahead_same_index, E. }
    split; [exact Hidx|]. split.
    + intros E. assert (Heq := Hshift _ _ Hma Hmt E).
      split; [exact Heq|]. intros k. apply paydays_from_same_month, Heq.
    + intros Hne.
      assert (E : month_index (rollforward offseter t) =
                  month_index (add_relativedelta t (mkRelativedelta (Some payment_day) 1))).
      { rewrite (add_month_fields payment_day Hp t Hmt), month_index_months_ahead.
        lia. }
      assert (Hm1 : 1 <= month (add_relativedelta t
                                  (mkRelativedelta (Some payment_day) 1)) <= 12).
      { rewrite (add_month_fields payment_day Hp t Hmt).
        apply months_ahead_month_range. }
      assert (Heq := Hshift _ _ Hma Hm1 E).
      split; [exact Heq|]. intros k. apply paydays_from_same_month, Heq.
Qed.

Lemma next_payday_from_adjusted_witness :
  1 <= 31 <= 31 /\ valid_date (mkDate 2021 7 31) /\
  (month_index (rollforward offseter (mkDate 2021 7 31)) = month_index (mkDate 2021 7 31)
   \/ month_index (rollforward offseter (mkDate 2021 7 31)) =
      month_index (mkDate 2021 7 31) + 1).
Proof.
  assert (Hp : 1 <= 31 <= 31) by lia.
  assert (Hv : valid_date (mkDate 2021 7 31)) by (unfold valid_date; simpl; lia).
  split; [exact Hp|]. split; [exact Hv|].
  exact (proj1 (proj2 (next_payday_from_adjusted 31 Hp) (mkDate 2021 7 31) Hv)).
Defined.

(** With payments on the 31st: 31 July 2021, a Saturday, is rolled to
    2 August, and the next date is 30 September, one month later than the
    31 August of the plain monthly progression. *)
Example adjusted_into_next_month :
  rollforward offseter (mkDate 2021 7 31) = mkDate 2021 8 2
  /\ add_relativedelta (mkDate 2021 8 2) (mkRelativedelta (Some 31) 1) =
     mkDate 2021 9 30
  /\ add_relativedelta (mkDate 2021 7 31) (mkRelativedelta (Some 31) 1) =
     mkDate 2021 8 31.
Proof. split; [vm_compute; reflexivity | split; reflexivity]. Qed.

(** * Further properties *)

(** ** Uniform series and nominal rates *)

Section InterestMore.

#[local] Open Scope R_scope.

Lemma powerRZ_eq_1 (x : R) (n : Z) :
  0 < x -> powerRZ x n = 1 -> x = 1 \/ n = 0%Z.
Proof.
  intros Hx H. rewrite (powerRZ_Rpower x n Hx) in H. unfold Rpower in H.
  rewrite <- exp_0 in H. apply exp_inv in H.
  apply Rmult_integral in H. destruct H as [H | H].
  - right. apply eq_IZR_R0, H.
  - left. destruct (Req_dec_T x 1) as [E | E]; [exact E|].
    exfalso. exact (ln_neq_0 x E Hx H).
Qed.

Lemma series_denominators (i : R) (n : Z) :
  -1 < i -> i <> 0 -> n <> 0%Z ->
  powerRZ (1 + i) n <> 0 /\ powerRZ (1 + i) n <> 1
  /\ 1 - powerRZ (1 + i) (- n) <> 0.
Proof.
  intros Hr Hi Hn.
  assert (Hp : powerRZ (1 + i) n <> 0) by (apply powerRZ_NOR; lra).
  assert (H1 : powerRZ (1 + i) n <> 1).
  { intros E. apply powerRZ_eq_1 in E; [|lra]. destruct E; [lra | contradiction]. }
  split; [exact Hp|]. split; [exact H1|].
  rewrite powerRZ_neg'. intros E. apply H1.
  apply Rmult_eq_reg_l with (/ powerRZ (1 + i) n);
    [|apply Rinv_neq_0_compat, Hp].
  rewrite Rinv_l by exact Hp. lra.
Qed.

(** X1: [a_given_p] and [p_given_a] undo each other: the payment that
    amortises a present value has that present value, and conversely. *)
Theorem a_given_p_p_given_a (P i : R) (n : Z) :
  -1 < i -> i <> 0 -> n <> 0%Z ->
  (a <- a_given_p P i n ;; p_given_a a i n) = Some P
  /\ (pv <- p_given_a P i n ;; a_given_p pv i n) = Some P.
Proof.
  intros Hr Hi Hn.
  destruct (series_denominators i n Hr Hi Hn) as [Hp [H1 Hd]].
  assert (Hb : 1 + i <> 0) by lra.
  assert (Hip : i * powerRZ (1 + i) n <> 0)
    by (apply Rmult_integral_contrapositive_currified; assumption).
  unfold a_given_p, p_given_a.
  do 3 (rewrite ?(py_pow_nonzero _ _ Hb), ?(py_div_nonzero _ _ Hd),
          ?(py_div_nonzero _ _ Hip); cbn [bind]).
  rewrite powerRZ_neg' in *.
  split; f_equal; field; repeat split; try assumption; lra.
Qed.

Lemma a_given_p_p_given_a_witness :
  -1 < 1 / 100 /\ 1 / 100 <> 0 /\ 12%Z <> 0%Z /\
  (a <- a_given_p 10000 (1 / 100) 12 ;; p_given_a a (1 / 100) 12) = Some 10000.
Proof.
  assert (Hr : -1 < 1 / 100) by lra.
  assert (Hi : 1 / 100 <> 0) by lra.
  assert (Hn : 12%Z <> 0%Z) by discriminate.
  split; [exact Hr|]. split; [exact Hi|]. split; [exact Hn|].
  exact (proj1 (a_given_p_p_given_a 10000 (1 / 100) 12 Hr Hi Hn)).
Defined.

(** X2: the formulas that divide by the rate, or by the number of periods
    per year, raise at zero: none of them has a branch for the limit case. *)
Theorem series_formulas_raise_at_zero (x i : R) (n : Z) :
  a_given_p x 0 n = None
  /\ a_given_p x i 0 = None
  /\ f_given_a x 0 n = None
  /\ NAR_to_effective_period_rate x 0 = None
  /\ NAR_to_EAR x 0 = None
  /\ EAR_to_NAR x 0 = None.
Proof.
  assert (H1 : (1 : R) + 0 <> 0) by lra.
  unfold a_given_p, f_given_a, NAR_to_effective_period_rate, NAR_to_EAR, EAR_to_NAR.
  rewrite !(py_pow_nonzero _ _ H1), !py_div_zero. cbn [bind].
  rewrite Rplus_0_r, !powerRZ_R1. unfold Rminus. rewrite Rplus_opp_r, !py_div_zero.
  repeat split; try reflexivity.
  unfold py_pow. change (- 0)%Z with 0%Z.
  destruct (Req_dec_T (1 + i) 0); cbn [Z.ltb Z.compare bind powerRZ];
    rewrite Rplus_opp_r; apply py_div_zero.
Qed.




Lemma p_given_f_value (F i : R) (k : Z) :
  -1 < i -> p_given_f F i k = Some (F * (1 / powerRZ (1 + i) k)).
Proof.
  intros Hr. assert (Hb : 1 + i <> 0) by lra.
  unfold p_given_f. rewrite (py_pow_nonzero _ _ Hb). cbn [bind].
  rewrite py_div_nonzero by (apply powerRZ_NOR, Hb). reflexivity.
Qed.




(** X5: nominal and effective annual rates convert back and forth without
    loss, for any positive number [n] of periods per year. *)
Theorem NAR_EAR_round_trip (x : R) (n : Z) :
  (0 < n)%Z ->
  (- IZR n < x -> (e <- NAR_to_EAR x n ;; EAR_to_NAR e n) = Some x)
  /\ (-1 < x -> (a <- EAR_to_NAR x n ;; NAR_to_EAR a n) = Some x).
Proof.
  intros Hn. destruct n as [|k|k]; try lia. clear Hn.
  assert (Hk : 0 < IZR (Zpos k)) by (apply IZR_lt; lia).
  assert (Hk0 : IZR (Zpos k) <> 0) by lra.
  unfold NAR_to_EAR, EAR_to_NAR.
  rewrite !(py_div_nonzero _ _ Hk0). cbn [bind]. split; intros Hx.
  - set (b := 1 + x / IZR (Zpos k)).
    assert (Hb : 0 < b).
    { subst b. apply Rmult_lt_reg_r with (IZR (Zpos k)); [exact Hk|].
      rewrite Rmult_0_l, Rmult_plus_distr_r. unfold Rdiv.
      rewrite Rmult_assoc, Rinv_l by exact Hk0. lra. }
    rewrite py_pow_nonzero by lra. cbn [bind].
    replace (1 + (powerRZ b (Zpos k) - 1)) with (powerRZ b (Zpos k)) by ring.
    rewrite py_rpow_pos by (apply powerRZ_lt, Hb). cbn [bind]. f_equal.
    rewrite (powerRZ_Rpower b _ Hb), Rpower_mult.
    replace (IZR (Zpos k) * (1 / IZR (Zpos k))) with 1 by (field; exact Hk0).
    rewrite (Rpower_1 b Hb). subst b. field. exact Hk0.
  - rewrite py_rpow_pos by lra. cbn [bind].
    set (m := Rpower (1 + x) (1 / IZR (Zpos k))).
    assert (Hm : 0 < m) by apply Rpower_pos.
    rewrite (py_div_nonzero _ _ Hk0). cbn [bind].
    replace (1 + IZR (Zpos k) * (m - 1) / IZR (Zpos k)) with m
      by (field; exact Hk0).
    rewrite py_pow_nonzero by lra. cbn [bind]. f_equal.
    subst m. rewrite root_pow by lra. ring.
Qed.

Lemma NAR_EAR_round_trip_witness :
  (0 < 12)%Z /\ - IZR 12 < 18 / 100 /\
  (e <- NAR_to_EAR (18 / 100) 12 ;; EAR_to_NAR e 12) = Some (18 / 100).
Proof.
  assert (Hn : (0 < 12)%Z) by lia.
  assert (Hx : - IZR 12 < 18 / 100) by lra.
  split; [exact Hn|]. split; [exact Hx|].
  exact (proj1 (NAR_EAR_round_trip (18 / 100) 12 Hn) Hx).
Defined.

(** X6: in exact arithmetic, with a positive rate, money in the future is
    worth less now and money now is worth more later; with rate 0 neither
    formula changes the amount.  (The bounds are strict over the real
    numbers; floating-point rounding, which is left out here, can close
    them.) *)
Theorem discounting_bounds (X i : R) (n : Z) :
  0 < X -> 0 < i -> (1 <= n)%Z ->
  (exists pv, p_given_f X i n = Some pv /\ 0 < pv < X)
  /\ (exists fv, f_given_p X i n = Some fv /\ X < fv)
  /\ p_given_f X 0 n = Some X
  /\ f_given_p X 0 n = Some X.
Proof.
  intros HX Hi Hn.
  assert (Hpow : 1 < powerRZ (1 + i) n).
  { destruct n as [|k|k]; try lia. cbn [powerRZ].
    apply Rlt_pow_R1; [lra | apply Pos2Nat.is_pos]. }
  assert (H1 : (1 : R) + 0 <> 0) by lra.
  unfold f_given_p. rewrite (p_given_f_value X i n) by lra.
  rewrite (p_given_f_value X 0 n) by lra.
  rewrite !py_pow_nonzero by lra. cbn [bind].
  unfold times, number_amount. rewrite Rplus_0_r, powerRZ_R1.
  split; [|split; [|split]].
  - eexists. split; [reflexivity|].
    assert (0 < 1 / powerRZ (1 + i) n < 1).
    { split; [apply Rdiv_lt_0_compat; lra|].
      apply Rmult_lt_reg_r with (powerRZ (1 + i) n); [lra|].
      unfold Rdiv. rewrite Rmult_assoc, Rinv_l by lra. lra. }
    split; [apply Rmult_lt_0_compat; lra|].
    rewrite <- (Rmult_1_r X) at 2. apply Rmult_lt_compat_l; lra.
  - eexists. split; [reflexivity|].
    rewrite <- (Rmult_1_r X) at 1. apply Rmult_lt_compat_l; lra.
  - f_equal. field.
  - f_equal. ring.
Qed.

Lemma discounting_bounds_witness :
  0 < 100 /\ 0 < 1 / 100 /\ (1 <= 12)%Z /\
  exists pv, p_given_f 100 (1 / 100) 12 = Some pv /\ 0 < pv < 100.
Proof.
  assert (HX : 0 < 100) by lra.
  assert (Hi : 0 < 1 / 100) by lra.
  assert (Hn : (1 <= 12)%Z) by lia.
  split; [exact HX|]. split; [exact Hi|]. split; [exact Hn|].
  exact (proj1 (discounting_bounds 100 (1 / 100) 12 HX Hi Hn)).
Defined.

(** ** The equation of the solver *)

(** The equation is of degree one in [F], with a positive slope factor. *)
Lemma equation_linear (capital i_edr : R) (buy_date : date)
    (payment_dates : list date) :
  -1 < i_edr -> payment_dates <> [] ->
  exists Eq,
    equation capital i_edr buy_date payment_dates = Some Eq
    /\ 0 < Rsum (map (fun date =>
                        1 / powerRZ (1 + i_edr) (days_between buy_date date))
                     payment_dates)
    /\ forall F,
         Eq F = capital -
                F * Rsum (map (fun date =>
                                 1 / powerRZ (1 + i_edr) (days_between buy_date date))
                              payment_dates).
Proof.
  intros Hr Hne.
  destruct (equation_value capital i_edr buy_date payment_dates Hr) as [Eq [HEq Hval]].
  exists Eq. split; [exact HEq|]. split.
  - apply Rsum_pos; [|exact Hne]. intros d.
    apply Rdiv_lt_0_compat; [lra|]. apply powerRZ_lt. lra.
  - intros F. rewrite Hval, <- Rsum_scale. reflexivity.
Qed.

(** X7: for a rate above -1 and at least one payment date, the equation the
    solver is given is of degree one in [F], with a positive slope factor
    [S] (the sum of the discount factors): it has exactly one root,
    [capital / S], which is positive when the capital is. *)
Theorem equation_unique_root (capital i_edr : R) (buy_date : date)
    (payment_dates : list date) :
  -1 < i_edr -> payment_dates <> [] ->
  exists Eq S,
    equation capital i_edr buy_date payment_dates = Some Eq
    /\ S = Rsum (map (fun date =>
                        1 / powerRZ (1 + i_edr) (days_between buy_date date))
                     payment_dates)
    /\ 0 < S
    /\ (forall F, Eq F = capital - F * S)
    /\ (forall F, Eq F = 0 <-> F = capital / S)
    /\ (0 < capital -> forall F, Eq F = 0 -> 0 < F).
Proof.
  intros Hr Hne.
  destruct (equation_linear capital i_edr buy_date payment_dates Hr Hne)
    as [Eq [HEq [HS Hlin]]].
  set (S := Rsum _) in *.
  exists Eq, S.
  assert (Hroot : forall F, Eq F = 0 <-> F = capital / S).
  { intros F. rewrite Hlin. split; intros H.
    - apply Rmult_eq_reg_r with S; [|lra].
      unfold Rdiv. rewrite Rmult_assoc, Rinv_l by lra. lra.
    - rewrite H. field. lra. }
  split; [exact HEq|]. split; [reflexivity|]. split; [exact HS|].
  split; [exact Hlin|]. split; [exact Hroot|].
  intros Hc F HF. apply Hroot in HF. rewrite HF. apply Rdiv_lt_0_compat; assumption.
Qed.

Lemma equation_unique_root_witness :
  -1 < 0 /\ [mkDate 2024 3 15; mkDate 2024 4 15] <> [] /\
  exists Eq S,
    equation 10000 0 (mkDate 2024 1 1) [mkDate 2024 3 15; mkDate 2024 4 15] = Some Eq
    /\ 0 < S /\ forall F, Eq F = 0 <-> F = 10000 / S.
Proof.
  assert (Hr : -1 < 0) by lra.
  assert (Hne : [mkDate 2024 3 15; mkDate 2024 4 15] <> []) by discriminate.
  split; [exact Hr|]. split; [exact Hne|].
  destruct (equation_unique_root 10000 0 (mkDate 2024 1 1)
              [mkDate 2024 3 15; mkDate 2024 4 15] Hr Hne)
    as [Eq [S [HEq [_ [HS [_ [Hroot _]]]]]]].
  exists Eq, S. split; [exact HEq|]. split; [exact HS | exact Hroot].
Defined.

Lemma equation_fold_None (i_edr : R) (buy_date : date)
    (payment_dates : list date) :
  fold_left
    (fun Eq date =>
       e <- Eq ;;
       let days := days_between buy_date date in
       pv <- p_given_f F_sym i_edr days ;;
       Some (fun F => e F - pv F))
    payment_dates None = None.
Proof. induction payment_dates as [|d l IH]; [reflexivity | exact IH]. Qed.

Lemma p_given_f_rate_minus_one {T : Type} `{Amount T} (F : T) (days : Z) :
  days <> 0%Z -> p_given_f F (-1) days = None.
Proof.
  intros Hd. unfold p_given_f, py_pow.
  replace (1 + -1) with 0 by ring.
  destruct (Req_dec_T 0 0) as [_ | E]; [|contradiction].
  destruct days as [|k|k]; [contradiction | | reflexivity].
  cbn [Z.ltb Z.compare bind powerRZ].
  rewrite pow_i by apply Pos2Nat.is_pos. rewrite py_div_zero. reflexivity.
Qed.

(** X8: at the daily rate -1 the discount factor divides by zero: with any
    payment date that is not the purchase date itself,
    [calculate_payment_amount] raises before the solver is called. *)
Theorem calculate_payment_amount_rate_minus_one
    (nsolve : (R -> R) -> R -> option R) (round2 : R -> R)
    (capital : R) (buy_date : date) (payment_dates : list date) :
  (exists date, In date payment_dates /\ days_between buy_date date <> 0%Z) ->
  equation capital (-1) buy_date payment_dates = None
  /\ calculate_payment_amount nsolve round2 capital (-1) buy_date payment_dates = None.
Proof.
  intros [date [Hin Hd]].
  assert (HEq : equation capital (-1) buy_date payment_dates = None).
  { unfold equation. generalize (fun _ : R => capital).
    induction payment_dates as [|d l IH]; intros e0; [contradiction|].
    cbn [fold_left bind]. cbv zeta.
    destruct (Z.eq_dec (days_between buy_date d) 0) as [E | E].
    - destruct Hin as [-> | Hin]; [contradiction|].
      destruct (p_given_f F_sym (-1) (days_between buy_date d)) as [pv|];
        cbn [bind]; [apply IH, Hin | apply equation_fold_None].
    - rewrite (p_given_f_rate_minus_one F_sym _ E). cbn [bind].
      apply equation_fold_None. }
  split; [exact HEq|].
  unfold calculate_payment_amount. rewrite HEq. reflexivity.
Qed.

Lemma calculate_payment_amount_rate_minus_one_witness :
  (exists date, In date [mkDate 2024 3 15]
                /\ days_between (mkDate 2024 1 1) date <> 0%Z)
  /\ calculate_payment_amount newton_step round_cents 10000 (-1) (mkDate 2024 1 1)
       [mkDate 2024 3 15] = None.
Proof.
  assert (H : exists date, In date [mkDate 2024 3 15]
                           /\ days_between (mkDate 2024 1 1) date <> 0%Z).
  { exists (mkDate 2024 3 15). split; [left; reflexivity | discriminate]. }
  split; [exact H|].
  exact (proj2 (calculate_payment_amount_rate_minus_one newton_step round_cents
                  10000 (mkDate 2024 1 1) [mkDate 2024 3 15] H)).
Defined.




End InterestMore.

(** ** Day counts *)

Lemma days_before_year_mono (y : Z) (k : nat) :
  days_before_year y + 365 * Z.of_nat k <= days_before_year (y + Z.of_nat k).
Proof.
  induction k as [|k IH].
  - cbn [Z.of_nat]. replace (y + 0) with y by lia. lia.
  - replace (y + Z.of_nat (S k)) with (y + Z.of_nat k + 1) by lia.
    rewrite days_before_year_succ. destruct (isleap (y + Z.of_nat k)); lia.
Qed.

Ltac month_tables :=
  unfold days_before_month, days_in_month in *;
  repeat match goal with
         | |- context [(Z.pos ?a <? Z.pos ?b)] =>
             let v := eval vm_compute in (Z.pos a <? Z.pos b) in
             change (Z.pos a <? Z.pos b) with v
         end;
  cbv beta iota in *; cbn [andb] in *.

Lemma day_of_year_bounds (d : date) :
  valid_date d ->
  1 <= days_before_month (year d) (month d) + day d
    <= 365 + (if isleap (year d) then 1 else 0).
Proof.
  destruct d as [y m dd]. unfold valid_date; cbn [year month day]. intros [Hm Hd].
  month_split Hm; month_tables; destruct (isleap y); lia.
Qed.

Lemma days_before_month_lt (y m m' : Z) :
  1 <= m <= 12 -> 1 <= m' <= 12 -> m < m' ->
  days_before_month y m + days_in_month y m <= days_before_month y m'.
Proof.
  intros Hm Hm' Hlt.
  month_split Hm; month_split Hm'; try lia;
    month_tables; destruct (isleap y); lia.
Qed.

(** The order on dates is the order of their day numbers. *)
Lemma toordinal_lt (a b : date) :
  valid_date a -> valid_date b -> date_lt a b -> toordinal a < toordinal b.
Proof.
  intros Ha Hb. rewrite date_lt_unfold. unfold toordinal.
  pose proof (day_of_year_bounds a Ha) as Da.
  pose proof (day_of_year_bounds b Hb) as Db.
  intros [Hy | [Hy [Hm | [Hm Hd]]]].
  - pose proof (days_before_year_succ (year a)) as Hs.
    pose proof (days_before_year_mono (year a + 1)
                  (Z.to_nat (year b - (year a + 1)))) as Hmono.
    replace (year a + 1 + Z.of_nat (Z.to_nat (year b - (year a + 1))))
      with (year b) in Hmono by lia.
    destruct (isleap (year a)); lia.
  - rewrite <- Hy.
    pose proof (days_before_month_lt (year a) (month a) (month b)
                  (proj1 Ha) (proj1 Hb) Hm) as H.
    destruct Ha as [_ Ha], Hb as [_ Hb]. lia.
  - rewrite <- Hy, <- Hm. lia.
Qed.

Lemma toordinal_le (a b : date) :
  valid_date a -> valid_date b -> date_le a b -> toordinal a <= toordinal b.
Proof.
  intros Ha Hb H. apply date_le_unfold in H. destruct H as [H | ->]; [|lia].
  pose proof (toordinal_lt a b Ha Hb H). lia.
Qed.

(** ** More on the business-day offset *)

Lemma rollforward_day_count (d : date) :
  valid_date d -> 0 <= days_between d (rollforward offseter d) <= 6.
Proof.
  intros Hv. unfold days_between.
  pose proof (valid_rollforward offseter d Hv) as Hvr.
  pose proof (toordinal_le _ _ Hv Hvr (rollforward_ge offseter d)) as Hge.
  destruct (rollforward_within_six d Hv) as [k [Hk Hle]].
  pose proof (toordinal_le _ _ Hvr (valid_succ_days k d Hv) Hle) as Hup.
  rewrite (toordinal_succ_days k d Hv) in Hup. lia.
Qed.

(** X10: [rollforward] moves a date forward by at most six days, and by
    none exactly when the date is a business day. *)
Theorem rollforward_at_most_six_days (d : date) :
  valid_date d ->
  0 <= days_between d (rollforward offseter d) <= 6
  /\ (days_between d (rollforward offseter d) = 0 <->
      is_business_day offseter d = true).
Proof.
  intros Hv. split; [apply rollforward_day_count, Hv|].
  pose proof (valid_rollforward offseter d Hv) as Hvr.
  unfold days_between. rewrite is_business_day_on_offset.
  destruct (is_on_offset offseter d) eqn:E.
  - rewrite (rollforward_on_offset offseter d E). split; [reflexivity | lia].
  - pose proof (toordinal_lt _ _ Hv Hvr (rollforward_off_offset offseter d E)).
    split; [lia | discriminate].
Qed.

Lemma rollforward_at_most_six_days_witness :
  valid_date (mkDate 2021 12 31) /\
  0 <= days_between (mkDate 2021 12 31) (rollforward offseter (mkDate 2021 12 31)) <= 6.
Proof.
  assert (Hv : valid_date (mkDate 2021 12 31)) by (unfold valid_date; simpl; lia).
  split; [exact Hv|].
  exact (proj1 (rollforward_at_most_six_days (mkDate 2021 12 31) Hv)).
Defined.

(** X11: [rollforward] keeps dates in order: a later date is never rolled
    to an earlier business day than an earlier date. *)
Theorem rollforward_monotone (d e : date) :
  valid_date d -> valid_date e -> date_le d e ->
  date_le (rollforward offseter d) (rollforward offseter e).
Proof.
  intros Hd He Hle.
  destruct (date_lt_or_le (rollforward offseter e) (rollforward offseter d))
    as [H | H]; [|exact H].
  pose proof (rollforward_skips offseter d (rollforward offseter e)
                (valid_rollforward offseter e He)
                (date_le_trans _ _ _ Hle (rollforward_ge offseter e)) H) as Hoff.
  rewrite (rollforward_is_on_offset offseter e He) in Hoff. discriminate Hoff.
Qed.

Lemma rollforward_monotone_witness :
  valid_date (mkDate 2024 12 24) /\ valid_date (mkDate 2024 12 25) /\
  date_le (mkDate 2024 12 24) (mkDate 2024 12 25) /\
  date_le (rollforward offseter (mkDate 2024 12 24))
          (rollforward offseter (mkDate 2024 12 25)).
Proof.
  assert (Hd : valid_date (mkDate 2024 12 24)) by (unfold valid_date; simpl; lia).
  assert (He : valid_date (mkDate 2024 12 25)) by (unfold valid_date; simpl; lia).
  assert (Hle : date_le (mkDate 2024 12 24) (mkDate 2024 12 25)) by reflexivity.
  split; [exact Hd|]. split; [exact He|]. split; [exact Hle|].
  exact (rollforward_monotone _ _ Hd He Hle).
Defined.

(** X12: before 1970 and after 2200 the calendar lists no holiday: there,
    [is_business_day] is the test that the date is a weekday. *)
Theorem is_business_day_outside_range (d : date) :
  year d < 1970 \/ 2200 < year d ->
  is_business_day offseter d = (weekday d <? 5).
Proof.
  intros Hy. rewrite is_business_day_on_offset. unfold is_on_offset, weekmask.
  destruct (is_holiday offseter d) eqn:E; [|apply andb_true_r].
  exfalso. apply is_holiday_In in E. rewrite offseter_holidays in E.
  destruct (holidays_in_range d E) as [Hlo Hhi].
  apply date_le_fields in Hlo, Hhi.
  unfold AbstractHolidayCalendar.start_date, AbstractHolidayCalendar.end_date in *.
  cbn [year month day] in *. lia.
Qed.

Lemma is_business_day_outside_range_witness :
  is_business_day offseter (mkDate 2201 12 25) = (weekday (mkDate 2201 12 25) <? 5).
Proof.
  apply (is_business_day_outside_range (mkDate 2201 12 25)).
  right. cbn [year]. lia.
Defined.

(** ** More on the payment-date generator *)

Lemma paydays_from_firstn (business_days : CustomBusinessDay) (payment_day : Z)
    (k j : nat) (p : date) :
  firstn k (paydays_from business_days payment_day (k + j) p) =
  paydays_from business_days payment_day k p.
Proof.
  revert p. induction k as [|k IH]; intros p; [reflexivity|].
  simpl. f_equal. apply IH.
Qed.

(** X14: asking for more periods only adds dates at the end: the first [n]
    dates of a longer schedule are the schedule of [n] periods. *)
Theorem get_payment_dates_prefix (buy_date : date) (payment_day n more : Z)
    (debug debug' : bool) :
  0 <= n -> 0 <= more ->
  firstn (Z.to_nat n)
         (fst (get_payment_dates buy_date payment_day (n + more) debug)) =
  fst (get_payment_dates buy_date payment_day n debug').
Proof.
  intros Hn Hm. rewrite !get_payment_dates_paydays_from.
  rewrite Z2Nat.inj_add by assumption. apply paydays_from_firstn.
Qed.

Lemma get_payment_dates_prefix_witness :
  0 <= 2 /\ 0 <= 10 /\
  firstn (Z.to_nat 2) (fst (get_payment_dates (mkDate 2024 1 1) 15 (2 + 10) true)) =
  fst (get_payment_dates (mkDate 2024 1 1) 15 2 false).
Proof.
  assert (Hn : 0 <= 2) by lia.
  assert (Hm : 0 <= 10) by lia.
  split; [exact Hn|]. split; [exact Hm|].
  exact (get_payment_dates_prefix (mkDate 2024 1 1) 15 2 10 true false Hn Hm).
Defined.

Lemma paydays_from_nth (business_days : CustomBusinessDay) (payment_day : Z)
    (k i : nat) (p b : date) :
  1 <= payment_day <= 31 -> valid_date p ->
  nth_error (paydays_from business_days payment_day k p) i = Some b ->
  exists a, valid_date a /\ date_le p a
            /\ b = next_payday business_days payment_day a.
Proof.
  intros Hp. revert p i. induction k as [|k IH]; intros p i Hv Hb.
  - destruct i; discriminate.
  - destruct i as [|i]; simpl in Hb.
    + injection Hb as <-. exists p. split; [exact Hv|].
      split; [apply date_le_refl | reflexivity].
    + destruct (IH _ i (valid_next_payday payment_day Hp business_days p Hv) Hb)
        as [a [Ha [Hle Hb']]].
      exists a. split; [exact Ha|]. split; [|exact Hb'].
      eapply date_le_trans; [|exact Hle].
      apply date_lt_le, next_payday_lt; assumption.
Qed.

(** X15: every date returned is the target-day date of some month (the
    last day of the month when it is shorter), or the business day that
    follows it, at most six days later. *)
Theorem payment_dates_near_target_day (buy_date : date)
    (payment_day timesteps : Z) (debug : bool) (i : nat) (b : date) :
  valid_date buy_date -> 1 <= payment_day <= 31 ->
  nth_error (fst (get_payment_dates buy_date payment_day timesteps debug)) i = Some b ->
  exists t,
    valid_date t
    /\ day t = Z.min (days_in_month (year t) (month t)) payment_day
    /\ b = rollforward offseter t
    /\ 0 <= days_between t b <= 6.
Proof.
  intros Hv Hp Hb. rewrite get_payment_dates_paydays_from in Hb.
  destruct (paydays_from_nth offseter payment_day _ i _ b Hp
              (valid_add_month payment_day Hp buy_date Hv) Hb)
    as [a [Ha [_ ->]]].
  rewrite next_payday_rollforward.
  rewrite (add_month_fields payment_day Hp a (proj1 Ha)).
  exists (months_ahead 1 payment_day a).
  pose proof (valid_months_ahead payment_day Hp 1 a) as Ht.
  split; [exact Ht|]. split; [reflexivity|]. split; [reflexivity|].
  exact (rollforward_day_count _ Ht).
Qed.

Lemma payment_dates_near_target_day_witness :
  valid_date (mkDate 2024 1 1) /\ 1 <= 15 <= 31 /\
  nth_error (fst (get_payment_dates (mkDate 2024 1 1) 15 12 false)) 3 =
    Some (mkDate 2024 6 17) /\
  exists t,
    valid_date t
    /\ day t = Z.min (days_in_month (year t) (month t)) 15
    /\ mkDate 2024 6 17 = rollforward offseter t
    /\ 0 <= days_between t (mkDate 2024 6 17) <= 6.
Proof.
  assert (Hv : valid_date (mkDate 2024 1 1)) by (unfold valid_date; simpl; lia).
  assert (Hp : 1 <= 15 <= 31) by lia.
  assert (Hb : nth_error (fst (get_payment_dates (mkDate 2024 1 1) 15 12 false)) 3 =
               Some (mkDate 2024 6 17)) by (vm_compute; reflexivity).
  split; [exact Hv|]. split; [exact Hp|]. split; [exact Hb|].
  exact (payment_dates_near_target_day (mkDate 2024 1 1) 15 12 false 3
           (mkDate 2024 6 17) Hv Hp Hb).
Defined.

Lemma next_payday_month_index (payment_day : Z) (a : date) :
  1 <= payment_day <= 31 -> valid_date a ->
  month_index (next_payday offseter payment_day a) = month_index a + 1
  \/ month_index (next_payday offseter payment_day a) = month_index a + 2.
Proof.
  intros Hp Ha. rewrite next_payday_rollforward.
  rewrite (add_month_fields payment_day Hp a (proj1 Ha)).
  pose proof (rollforward_month_index _ (valid_months_ahead payment_day Hp 1 a)) as H.
  rewrite month_index_months_ahead in H. lia.
Qed.

(** X16: no two payments fall in the same calendar month and at most one
    month is skipped between two of them: each date is one or two months
    after the date before it, and the first is two or three months after the
    purchase. *)
Theorem payment_dates_month_steps (buy_date : date) (payment_day timesteps : Z)
    (debug : bool) :
  valid_date buy_date -> 1 <= payment_day <= 31 ->
  let l := fst (get_payment_dates buy_date payment_day timesteps debug) in
  (forall b, hd_error l = Some b ->
             month_index b = month_index buy_date + 2
             \/ month_index b = month_index buy_date + 3)
  /\ (forall (i : nat) (a b : date),
         nth_error l i = Some a -> nth_error l (S i) = Some b ->
         month_index b = month_index a + 1 \/ month_index b = month_index a + 2).
Proof.
  intros Hv Hp. cbv zeta. rewrite get_payment_dates_paydays_from.
  set (p0 := add_relativedelta buy_date _).
  assert (Hv0 : valid_date p0) by (apply valid_add_month; assumption).
  assert (Hi0 : month_index p0 = month_index buy_date + 1).
  { subst p0. rewrite (add_month_fields payment_day Hp buy_date (proj1 Hv)).
    apply month_index_months_ahead. }
  split.
  - intros b Hb. destruct (Z.to_nat timesteps) as [|k]; [discriminate|].
    simpl in Hb. injection Hb as <-.
    pose proof (next_payday_month_index payment_day p0 Hp Hv0). lia.
  - intros i a b Ha Hb.
    rewrite (paydays_from_step _ _ _ _ _ _ _ Ha Hb).
    apply next_payday_month_index; [exact Hp|].
    pose proof (paydays_from_valid payment_day Hp offseter (Z.to_nat timesteps) p0 Hv0)
      as Hall.
    rewrite Forall_forall in Hall. apply Hall. eapply nth_error_In, Ha.
Qed.

Lemma payment_dates_month_steps_witness :
  valid_date (mkDate 2021 5 10) /\ 1 <= 31 <= 31 /\
  forall (i : nat) (a b : date),
    nth_error (fst (get_payment_dates (mkDate 2021 5 10) 31 3 false)) i = Some a ->
    nth_error (fst (get_payment_dates (mkDate 2021 5 10) 31 3 false)) (S i) = Some b ->
    month_index b = month_index a + 1 \/ month_index b = month_index a + 2.
Proof.
  assert (Hv : valid_date (mkDate 2021 5 10)) by (unfold valid_date; simpl; lia).
  assert (Hp : 1 <= 31 <= 31) by lia.
  split; [exact Hv|]. split; [exact Hp|].
  exact (proj2 (payment_dates_month_steps (mkDate 2021 5 10) 31 3 false Hv Hp)).
Defined.

(** ** The generated dates in the solver *)

Lemma StronglySorted_valid_impl (R R' : date -> date -> Prop) (l : list date) :
  (forall a b, valid_date a -> valid_date b -> R a b -> R' a b) ->
  Forall valid_date l -> StronglySorted R l -> StronglySorted R' l.
Proof.
  intros Himp Hv Hs. induction Hs as [|a l Hs IH Hall]; constructor.
  - apply IH. inversion Hv; assumption.
  - inversion Hv as [|? ? Ha Hl]; subst.
    rewrite Forall_forall in *. intros b Hb. apply Himp; auto.
Qed.

Lemma paydays_after_purchase (buy_date : date) (payment_day timesteps : Z)
    (debug : bool) :
  valid_date buy_date -> 1 <= payment_day <= 31 ->
  Forall (fun d => 0 < days_between buy_date d)
         (fst (get_payment_dates buy_date payment_day timesteps debug)).
Proof.
  intros Hv Hp. rewrite get_payment_dates_paydays_from.
  set (p0 := add_relativedelta buy_date _).
  assert (Hv0 : valid_date p0) by (apply valid_add_month; assumption).
  pose proof (paydays_from_valid payment_day Hp offseter (Z.to_nat timesteps) p0 Hv0)
    as Hall.
  pose proof (paydays_from_later payment_day Hp offseter (Z.to_nat timesteps) p0 Hv0)
    as Hlater.
  rewrite Forall_forall in *. intros d Hd. unfold days_between.
  pose proof (toordinal_lt buy_date d Hv (Hall d Hd)
                (date_lt_trans _ _ _ (add_month_lt payment_day Hp buy_date Hv)
                               (Hlater d Hd))).
  lia.
Qed.

(** X17: the day counts the solver takes from the generated dates,
    [(date - buy_date).days], are positive and strictly increasing along the
    list. *)
Theorem payment_day_counts (buy_date : date) (payment_day timesteps : Z)
    (debug : bool) :
  valid_date buy_date -> 1 <= payment_day <= 31 ->
  let l := fst (get_payment_dates buy_date payment_day timesteps debug) in
  Forall (fun d => 0 < days_between buy_date d) l
  /\ StronglySorted
       (fun a b => days_between buy_date a < days_between buy_date b) l.
Proof.
  intros Hv Hp. cbv zeta. split; [apply paydays_after_purchase; assumption|].
  rewrite get_payment_dates_paydays_from.
  set (p0 := add_relativedelta buy_date _).
  assert (Hv0 : valid_date p0) by (apply valid_add_month; assumption).
  apply (StronglySorted_valid_impl date_lt).
  - intros a b Ha Hb Hlt. unfold days_between.
    pose proof (toordinal_lt a b Ha Hb Hlt). lia.
  - apply paydays_from_valid; assumption.
  - apply paydays_from_sorted; assumption.
Qed.

Lemma payment_day_counts_witness :
  valid_date (mkDate 2024 1 1) /\ 1 <= 15 <= 31 /\
  Forall (fun d => 0 < days_between (mkDate 2024 1 1) d)
         (fst (get_payment_dates (mkDate 2024 1 1) 15 12 false)).
Proof.
  assert (Hv : valid_date (mkDate 2024 1 1)) by (unfold valid_date; simpl; lia).
  assert (Hp : 1 <= 15 <= 31) by lia.
  split; [exact Hv|]. split; [exact Hp|].
  exact (proj1 (payment_day_counts (mkDate 2024 1 1) 15 12 false Hv Hp)).
Defined.

Section GeneratedDatesInSolver.

#[local] Open Scope R_scope.




End GeneratedDatesInSolver.

(** ** More on the holiday rules *)

Lemma weekday_pred_day (d : date) :
  valid_date d -> weekday (pred_day d) = (weekday d - 1) mod 7.
Proof.
  intros H. unfold weekday. rewrite (toordinal_pred_day d H).
  rewrite Zminus_mod_idemp_l. f_equal. lia.
Qed.

Lemma easter_from_new_year (y : Z) :
  apply_offset Easter (mkDate y 1 1) = easter y.
Proof.
  destruct (easter_fields y) as [Hy [Hm Hd]].
  cbn [apply_offset year].
  replace (date_ltb (mkDate y 1 1) (easter y)) with true; [reflexivity|].
  symmetry. apply (proj2 (date_lt_unfold _ _)). cbn [year month day]. lia.
Qed.

Lemma days_before_year_leap (y : Z) :
  days_before_year y + (if isleap y then 1 else 0) =
  y * 365 - 365 + y / 4 - y / 100 + y / 400.
Proof.
  pose proof (days_before_year_succ y) as H.
  unfold days_before_year in H at 1. cbv zeta in H.
  replace (y + 1 - 1) with y in H by lia. lia.
Qed.

(** Easter Day, as [dateutil] computes it, is a Sunday of March or April. *)
Lemma easter_sunday (y : Z) :
  valid_date (easter y) /\ weekday (easter y) = 6
  /\ 3 <= month (easter y) <= 4.
Proof.
  unfold weekday, toordinal, valid_date, easter. cbv zeta. cbn [year month day].
  set (g := y mod 19).
  set (h := (_ + 15) mod 30).
  assert (Hg : 0 <= g < 19) by (apply Z.mod_pos_bound; lia).
  assert (Hh : 0 <= h < 30) by (apply Z.mod_pos_bound; lia).
  clearbody g h.
  set (i := h - _).
  assert (Hi : 0 <= i <= 28).
  { subst i.
    assert (Ha : (h / 28 = 0 /\ h < 28) \/ (h / 28 = 1 /\ 28 <= h))
      by (Z.div_mod_to_equations; lia).
    assert (Hc : (21 - g) / 11 = 0 \/ (21 - g) / 11 = 1)
      by (Z.div_mod_to_equations; lia).
    destruct Ha as [[Ha Hlt] | [Ha Hge]]; rewrite Ha; [lia|].
    assert (Hb : (h = 28 /\ 29 / (h + 1) = 1) \/ (h = 29 /\ 29 / (h + 1) = 0)).
    { assert (h = 28 \/ h = 29) as [-> | ->] by lia; [left | right];
        split; reflexivity. }
    destruct Hb as [[Hh' Hb] | [Hh' Hb]], Hc as [Hc | Hc]; rewrite Hb, Hc; lia. }
  clearbody i.
  remember ((y + y / 4 + i + 2 - y / 100 + y / 100 / 4) mod 7) as j eqn:Hj.
  assert (Hjr : 0 <= j < 7) by (rewrite Hj; apply Z.mod_pos_bound; lia).
  assert (H400 : y / 100 / 4 = y / 400) by (Z.div_mod_to_equations; lia).
  pose proof (days_before_year_leap y) as Hdby.
  set (p := i - j) in *.
  assert (Hp : -6 <= p <= 28) by (subst p; lia).
  destruct (Z_le_gt_dec p 3) as [Hle | Hgt].
  - replace ((p + 26) / 30) with 0 by (Z.div_mod_to_equations; lia).
    replace ((p + 6) / 40) with 0 by (Z.div_mod_to_equations; lia).
    replace ((p + 27 + 0) mod 31) with (p + 27) by (Z.div_mod_to_equations; lia).
    change (3 + 0) with 3. month_tables.
    split; [lia|]. split; [|lia].
    rewrite H400 in Hj. subst p. destruct (isleap y);
      Z.div_mod_to_equations; lia.
  - replace ((p + 26) / 30) with 1 by (Z.div_mod_to_equations; lia).
    replace ((p + 6) / 40) with 0 by (Z.div_mod_to_equations; lia).
    replace ((p + 27 + 0) mod 31) with (p - 4) by (Z.div_mod_to_equations; lia).
    change (3 + 1) with 4. month_tables.
    split; [lia|]. split; [|lia].
    rewrite H400 in Hj. subst p. destruct (isleap y);
      Z.div_mod_to_equations; lia.
Qed.

Lemma add_days_small (d : date) :
  add_days d (-1) = pred_day d
  /\ add_days d 1 = succ_day d
  /\ add_days d (-2) = pred_day (pred_day d)
  /\ add_days d (-3) = pred_day (pred_day (pred_day d)).
Proof. repeat split; reflexivity. Qed.

(** X19: for every year, the rule "Jueves Santo" gives the Thursday and
    the rule "Viernes Santo" the Friday before Easter Sunday. *)
Theorem holy_week_rules (y : Z) :
  let jueves := mkHoliday "Jueves Santo" 1 1 None [Easter; Day (-3)] in
  let viernes := mkHoliday "Viernes Santo" 1 1 None [Easter; Day (-2)] in
  In jueves PeruHolidayCalendar.rules /\ In viernes PeruHolidayCalendar.rules
  /\ weekday (easter y) = 6
  /\ weekday (holiday_in_year jueves y) = 3
  /\ days_between (holiday_in_year jueves y) (easter y) = 3
  /\ weekday (holiday_in_year viernes y) = 4
  /\ days_between (holiday_in_year viernes y) (easter y) = 2.
Proof.
  cbv zeta.
  destruct (easter_sunday y) as [Hv [Hw _]].
  destruct (add_days_small (easter y)) as [_ [_ [H2 H3]]].
  pose proof (valid_pred_day _ Hv) as Hv1.
  pose proof (valid_pred_day _ Hv1) as Hv2.
  pose proof (toordinal_pred_day _ Hv) as T1.
  pose proof (toordinal_pred_day _ Hv1) as T2.
  pose proof (toordinal_pred_day _ Hv2) as T3.
  split; [simpl; tauto|]. split; [simpl; tauto|]. split; [exact Hw|].
  unfold holiday_in_year, apply_rule.
  cbn [h_observance h_offset h_month h_day fold_left].
  rewrite easter_from_new_year. cbn [apply_offset]. rewrite H2, H3.
  unfold days_between, weekday in *. rewrite T3, T2, T1.
  repeat split; try lia; Z.div_mod_to_equations; lia.
Qed.

Lemma nearest_workday_cases (y : Z) :
  let w := weekday (mkDate y 1 1) in
  weekday (mkDate y 1 2) = (w + 1) mod 7
  /\ weekday (mkDate y 1 3) = (w + 2) mod 7
  /\ weekday (mkDate (y - 1) 12 31) = (w - 1) mod 7
  /\ toordinal (mkDate y 1 2) = toordinal (mkDate y 1 1) + 1
  /\ toordinal (mkDate y 1 3) = toordinal (mkDate y 1 1) + 2
  /\ toordinal (mkDate (y - 1) 12 31) = toordinal (mkDate y 1 1) - 1.
Proof.
  cbv zeta.
  assert (V1 : valid_date (mkDate y 1 1)) by (unfold valid_date; cbn; lia).
  assert (V2 : valid_date (mkDate y 1 2)) by (unfold valid_date; cbn; lia).
  pose proof (toordinal_succ_day _ V1) as T2.
  pose proof (toordinal_succ_day _ V2) as T3.
  pose proof (toordinal_pred_day _ V1) as T0.
  change (succ_day (mkDate y 1 1)) with (mkDate y 1 2) in T2.
  change (succ_day (mkDate y 1 2)) with (mkDate y 1 3) in T3.
  change (pred_day (mkDate y 1 1)) with (mkDate (y - 1) 12 31) in T0.
  unfold weekday. rewrite T3, T2, T0.
  repeat split; try lia; Z.div_mod_to_equations; lia.
Qed.

Ltac eval_closed_eqb :=
  repeat match goal with
         | |- context [Z.eqb ?a ?b] =>
             let v := eval vm_compute in (Z.eqb a b) in
             match v with
             | true => change (Z.eqb a b) with true
             | false => change (Z.eqb a b) with false
             end
         end;
  cbv beta iota.

(** X20: the two New Year rules never give a weekend day: each gives its
    own date or a neighbouring weekday.  They give the same date exactly when
    1 January is a Friday or a Sunday; that year has one New Year holiday. *)
Theorem new_year_rules (y : Z) :
  let first := mkHoliday "New Year's Day" 1 1 (Some nearest_workday) [] in
  let second := mkHoliday "New Year's 2nd Day" 1 2 (Some nearest_workday) [] in
  In first PeruHolidayCalendar.rules /\ In second PeruHolidayCalendar.rules
  /\ weekday (holiday_in_year first y) < 5
  /\ weekday (holiday_in_year second y) < 5
  /\ -1 <= days_between (mkDate y 1 1) (holiday_in_year first y) <= 1
  /\ -1 <= days_between (mkDate y 1 2) (holiday_in_year second y) <= 1
  /\ (holiday_in_year first y = holiday_in_year second y <->
      weekday (mkDate y 1 1) = 4 \/ weekday (mkDate y 1 1) = 6).
Proof.
  cbv zeta.
  split; [simpl; tauto|]. split; [simpl; tauto|].
  unfold holiday_in_year, apply_rule. cbn [h_observance h_month h_day].
  unfold nearest_workday, days_between.
  destruct (nearest_workday_cases y) as [W2 [W3 [W0 [T2 [T3 T0]]]]].
  cbv zeta in *.
  rewrite !(proj1 (add_days_small _)), !(proj1 (proj2 (add_days_small _))).
  change (succ_day (mkDate y 1 1)) with (mkDate y 1 2).
  change (succ_day (mkDate y 1 2)) with (mkDate y 1 3).
  change (pred_day (mkDate y 1 1)) with (mkDate (y - 1) 12 31).
  change (pred_day (mkDate y 1 2)) with (mkDate y 1 1).
  rewrite W2.
  pose proof (weekday_range (mkDate y 1 1)) as Hr.
  assert (Hw : weekday (mkDate y 1 1) = 0 \/ weekday (mkDate y 1 1) = 1
               \/ weekday (mkDate y 1 1) = 2 \/ weekday (mkDate y 1 1) = 3
               \/ weekday (mkDate y 1 1) = 4 \/ weekday (mkDate y 1 1) = 5
               \/ weekday (mkDate y 1 1) = 6) by lia.
  repeat (destruct Hw as [Hw | Hw]);
    rewrite Hw in *; eval_closed_eqb;
    rewrite ?W0, ?W2, ?W3, ?T0, ?T2, ?T3, ?Hw;
    (split; [Z.div_mod_to_equations; lia|]);
    (split; [Z.div_mod_to_equations; lia|]);
    (split; [lia|]); (split; [lia|]);
    (split; [intros E; first [lia | injection E; lia]
            | intros [E | E]; try discriminate E;
                                           reflexivity]).
Qed.

(** ** Edge cases of the solver *)

Section SolverEdges.

#[local] Open Scope R_scope.

Variable nsolve : (R -> R) -> R -> option R.
Variable round2 : R -> R.

(** X21: with no payment date the expression given to the solver is the
    constant [capital], which has no root unless the capital is 0; whatever
    the solver returns is rounded and returned as both amounts. *)
Theorem calculate_payment_amount_no_dates (capital i_edr : R) (buy_date : date) :
  (exists Eq, equation capital i_edr buy_date [] = Some Eq
              /\ (forall F, Eq F = capital)
              /\ (capital <> 0 -> forall F, Eq F <> 0)
              /\ (forall F_val,
                    nsolve Eq 1 = Some F_val ->
                    calculate_payment_amount nsolve round2 capital i_edr buy_date [] =
                    Some (round2 F_val, round2 F_val))).
Proof.
  exists (fun _ => capital). split; [reflexivity|]. split; [reflexivity|].
  split; [intros Hc F; exact Hc|].
  intros F_val HF. unfold calculate_payment_amount.
  change (equation capital i_edr buy_date []) with (Some (fun _ : R => capital)).
  cbn [bind]. rewrite HF. cbn [bind List.length INR]. do 2 f_equal. f_equal. ring.
Qed.

(** X22: the amounts returned come from the value [F] the solver returns
    for the equation: the first is [round(F, 2)] and the second the rounding
    of [F + (F - round(F, 2)) * N].  Before that last rounding, the [N - 1]
    rounded payments and the last amount add up to [N * F] plus one more
    rounding difference [F - round(F, 2)]: the adjustment is taken [N]
    times, once more than the number of rounded payments. *)
Theorem rounding_adjustment_total (capital i_edr : R) (buy_date : date)
    (payment_dates : list date) (rounded_val last_val : R) :
  calculate_payment_amount nsolve round2 capital i_edr buy_date payment_dates =
    Some (rounded_val, last_val) ->
  exists (Eq : R -> R) (F_val : R),
    equation capital i_edr buy_date payment_dates = Some Eq
    /\ nsolve Eq 1 = Some F_val
    /\ rounded_val = round2 F_val
    /\ last_val =
       round2 (F_val + (F_val - rounded_val) * INR (List.length payment_dates))
    /\ rounded_val * (INR (List.length payment_dates) - 1)
       + (F_val + (F_val - rounded_val) * INR (List.length payment_dates)) =
       INR (List.length payment_dates) * F_val + (F_val - rounded_val).
Proof.
  unfold calculate_payment_amount. intros H.
  destruct (equation capital i_edr buy_date payment_dates) as [Eq|];
    [|discriminate H].
  cbn [bind] in H. destruct (nsolve Eq 1) as [F_val|] eqn:HF; [|discriminate H].
  cbn [bind] in H. injection H as <- <-.
  exists Eq, F_val.
  split; [reflexivity|]. split; [exact HF|].
  split; [reflexivity|]. split; [reflexivity|]. ring.
Qed.

End SolverEdges.

Lemma rounding_adjustment_total_witness :
  exists rounded_val last_val : R,
    calculate_payment_amount newton_step round_cents 10000 0 (mkDate 2024 1 1)
      [mkDate 2024 3 15; mkDate 2024 4 15] = Some (rounded_val, last_val)
    /\ exists (Eq : R -> R) (F_val : R),
         equation 10000 0 (mkDate 2024 1 1) [mkDate 2024 3 15; mkDate 2024 4 15] =
           Some Eq
         /\ newton_step Eq 1%R = Some F_val
         /\ rounded_val = round_cents F_val
         /\ last_val = round_cents (F_val + (F_val - rounded_val) * INR 2)%R
         /\ (rounded_val * (INR 2 - 1) + (F_val + (F_val - rounded_val) * INR 2) =
             INR 2 * F_val + (F_val - rounded_val))%R.
Proof.
  destruct (newton_step_root 10000 0 (mkDate 2024 1 1)
              [mkDate 2024 3 15; mkDate 2024 4 15])
    as [Eq [F_val [HEq [HF _]]]]; [lra | discriminate |].
  assert (H : calculate_payment_amount newton_step round_cents 10000 0
                (mkDate 2024 1 1) [mkDate 2024 3 15; mkDate 2024 4 15] =
              Some (round_cents F_val,
                    round_cents (F_val + (F_val - round_cents F_val) * INR 2)%R)).
  { unfold calculate_payment_amount. rewrite HEq. cbn [bind]. rewrite HF.
    reflexivity. }
  eexists. eexists. split; [exact H|].
  exact (rounding_adjustment_total newton_step round_cents 10000 0 (mkDate 2024 1 1)
           [mkDate 2024 3 15; mkDate 2024 4 15] _ _ H).
Defined.

(** * The generator within the range of [datetime] *)

(** ** Where the dates of the generator can be built *)


(** The date of line 92, and of line 96: it can be built unless
    [payment_day] is negative or the month after is past December 9999. *)
Lemma add_month_checked (payment_day : Z) (d : date) :
  in_datetime_range d = true ->
  add_relativedelta_checked d (mkRelativedelta (Some payment_day) 1) =
  if (0 <=? payment_day) && negb ((year d =? MAXYEAR) && (month d =? 12))
  then Some (add_relativedelta d (mkRelativedelta (Some payment_day) 1))
  else None.
Proof.
  intros Hd. apply in_datetime_range_iff in Hd.
  destruct Hd as [[Hm Hday] [Hlo Hhi]].
  unfold add_relativedelta_checked, checked.
  set (p := add_relativedelta d _).
  assert (E : in_datetime_range p =
              (0 <=? payment_day) && negb ((year d =? MAXYEAR) && (month d =? 12))).
  { apply Bool.eq_iff_eq_true.
    rewrite in_datetime_range_iff, andb_true_iff, negb_true_iff, andb_false_iff,
      Z.leb_le, !Z.eqb_neq.
    subst p. unfold add_relativedelta, valid_date, MINYEAR, MAXYEAR in *.
    cbn [rd_months rd_day]. change (1 =? 0) with false. cbv iota.
    destruct (12 <? month d + 1) eqn:E12;
      [apply Z.ltb_lt in E12 | apply Z.ltb_ge in E12].
    - cbn [year month day].
      pose proof (days_in_month_bounds (year d + 1) (month d + 1 - 12)).
      pose proof (days_in_month_bounds (year d) (month d)).
      destruct (payment_day =? 0) eqn:E0;
        [apply Z.eqb_eq in E0 | apply Z.eqb_neq in E0]; lia.
    - replace (month d + 1 <? 1) with false by (symmetry; apply Z.ltb_ge; lia).
      cbn [year month day].
      pose proof (days_in_month_bounds (year d) (month d + 1)).
      pose proof (days_in_month_bounds (year d) (month d)).
      destruct (payment_day =? 0) eqn:E0;
        [apply Z.eqb_eq in E0 | apply Z.eqb_neq in E0]; lia. }
  rewrite E. reflexivity.
Qed.


(** ** The checked loop and the plain one *)

Section CheckedLoop.

Variable payment_day : Z.
Variable debug : bool.




Hypothesis payment_day_range : 1 <= payment_day <= 31.





End CheckedLoop.





(** X13: for a number of periods that is zero or negative, the generator
    returns the empty list and prints nothing, provided the date of line 92
    can be built: [payment_day] is not negative and the purchase is before
    December 9999.  Otherwise the call raises, before the loop. *)
Theorem get_payment_dates_no_periods (buy_date : date) (payment_day timesteps : Z)
    (debug : bool) :
  in_datetime_range buy_date = true -> timesteps <= 0 ->
  (0 <= payment_day -> year buy_date < MAXYEAR \/ month buy_date < 12 ->
   get_payment_dates_checked buy_date payment_day timesteps debug = Some ([], []))
  /\ (payment_day < 0 \/ (year buy_date = MAXYEAR /\ month buy_date = 12) ->
      get_payment_dates_checked buy_date payment_day timesteps debug = None).
Proof.
  intros Hr Hn. unfold get_payment_dates_checked.
  rewrite (add_month_checked payment_day buy_date Hr).
  replace (Z.to_nat timesteps) with 0%nat by lia.
  split.
  - intros Hp Hd.
    replace (0 <=? payment_day) with true by (symmetry; apply Z.leb_le; lia).
    replace ((year buy_date =? MAXYEAR) && (month buy_date =? 12)) with false.
    + reflexivity.
    + symmetry. apply andb_false_iff. rewrite !Z.eqb_neq. lia.
  - intros [Hp | [Hy Hm]].
    + replace (0 <=? payment_day) with false by (symmetry; apply Z.leb_gt; lia).
      reflexivity.
    + replace ((year buy_date =? MAXYEAR) && (month buy_date =? 12)) with true.
      * rewrite andb_false_r. reflexivity.
      * symmetry. apply andb_true_iff. rewrite !Z.eqb_eq. auto.
Qed.

Lemma get_payment_dates_no_periods_witness :
  in_datetime_range (mkDate 2024 1 1) = true /\ -3 <= 0 /\
  get_payment_dates_checked (mkDate 2024 1 1) 15 (-3) true = Some ([], []) /\
  get_payment_dates_checked (mkDate 2024 1 1) (-1) (-3) true = None.
Proof.
  assert (Hr : in_datetime_range (mkDate 2024 1 1) = true) by reflexivity.
  assert (Hn : -3 <= 0) by lia.
  split; [exact Hr|]. split; [exact Hn|]. split.
  - apply (proj1 (get_payment_dates_no_periods (mkDate 2024 1 1) 15 (-3) true Hr Hn));
      [lia | left; unfold MAXYEAR; cbn [year]; lia].
  - apply (proj2 (get_payment_dates_no_periods (mkDate 2024 1 1) (-1) (-3) true Hr Hn)).
    left. lia.
Defined.
